(** * VoiceForge transform pipeline: backend/audio_processing.py

    A shallow embedding of the audio pipeline and the properties its
    specification states about it.

    Numbers.  Python floats and numpy samples are modelled by the rationals
    [Q] with exact arithmetic: every finite float is a rational, and the
    comparisons the code makes ([==], [!=], [<], [>]) are comparisons of
    values, i.e. [Qeq] / [Qlt].  Rounding is outside the model.  Overflow,
    the infinities and NaN are outside this first embedding; the module
    [Ieee] repeats the pipeline on a carrier that has them, and the claims
    that depend on the range of a float are settled there.

    Libraries.  librosa, scipy.signal, numpy's percentile/tanh and soundfile
    are not part of the repository; they are the fields of the class
    [AudioLibs], and every theorem holds for every implementation of it.
    A call that may raise returns a [result]. *)

From Stdlib Require Import String QArith Qabs Qminmax Qround ZArith Bool Lia Lqa List.
From Stdlib.Strings Require Import Byte.
Import ListNotations.

Local Open Scope Q_scope.

(** ** Exceptions and the error monad *)

(** A Python exception: its class name and its message. *)
Record exn : Type := Exn { exn_class : string ; exn_msg : string }.

Inductive result (A : Type) : Type :=
| Ok (a : A)
| Raised (e : exn).
Arguments Ok {A} a.
Arguments Raised {A} e.

Definition bind {A B : Type} (c : result A) (k : A -> result B) : result B :=
  match c with
  | Ok a => k a
  | Raised e => Raised e
  end.

Declare Scope result_scope.
Delimit Scope result_scope with result.
Notation "x <- c ;; k" := (bind c (fun x => k))
  (at level 61, c at next level, right associativity) : result_scope.
Notation "' p <- c ;; k" := (bind c (fun x => let p := x in k))
  (at level 61, p pattern, c at next level, right associativity) : result_scope.
Local Open Scope result_scope.

Definition ZeroDivisionError : exn :=
  Exn "ZeroDivisionError" "float division by zero".
Definition BroadcastError : exn :=
  Exn "ValueError" "operands could not be broadcast together".

(** ** Sample buffers and numpy's element-wise operations *)

Definition buffer : Type := list Q.

Definition Qltb (x y : Q) : bool :=
  (Qnum x * QDen y <? Qnum y * QDen x)%Z.

(** Python's [x / y] on floats. *)
Definition py_div (x y : Q) : result Q :=
  if Qeq_bool y 0 then Raised ZeroDivisionError else Ok (x / y).

(** Python's [max(a, b)]: the first argument unless the second is greater. *)
Definition py_max (a b : Q) : Q := if Qltb a b then b else a.

(** [array * scalar] and [array / scalar]. *)
Definition np_scale (a : buffer) (k : Q) : buffer := map (fun x => x * k) a.
Definition np_divide (a : buffer) (k : Q) : buffer := map (fun x => x / k) a.

Fixpoint zip_add (a b : buffer) : buffer :=
  match a, b with
  | x :: a', y :: b' => (x + y) :: zip_add a' b'
  | _, _ => []
  end.

(** [a + b] on one-dimensional arrays, with numpy's broadcasting rule: equal
    lengths add element-wise, a length-one operand is stretched, anything
    else raises. *)
Definition np_add (a b : buffer) : result buffer :=
  if Nat.eqb (length a) (length b) then Ok (zip_add a b)
  else match a, b with
       | _, [y] => Ok (map (fun x => x + y) a)
       | [x], _ => Ok (map (fun y => x + y) b)
       | _, _ => Raised BroadcastError
       end.

(** ** The settings record *)

Record VoiceSettings : Type := mkVoiceSettings {
  pitch : Q ;
  timbre : Q ;
  depth : Q ;
  speed : Q ;
  emotion : Q ;
  morph : Q ;
  noise_reduction : Q ;
  clarity : Q
}.

(** ** The libraries the pipeline calls *)

Class AudioLibs : Type := {
  (** [librosa.load(io.BytesIO(bytes), sr=, mono=)] *)
  librosa_load : list byte -> Z -> bool -> result (buffer * Z) ;
  (** [librosa.effects.time_stretch(audio, rate=)] *)
  time_stretch : buffer -> Q -> result buffer ;
  (** [librosa.effects.pitch_shift(audio, sr=, n_steps=)] *)
  pitch_shift : buffer -> Z -> Q -> result buffer ;
  (** [scipy.signal.butter(order, Wn, btype=)], returning [(b, a)] *)
  signal_butter : Z -> Q -> string -> result (list Q * list Q) ;
  (** [scipy.signal.lfilter(b, a, x)] *)
  signal_lfilter : list Q -> list Q -> buffer -> result buffer ;
  (** [np.tanh] on one sample *)
  np_tanh : Q -> Q ;
  (** [np.percentile(a, q)] *)
  np_percentile : buffer -> Q -> result Q ;
  (** [sf.write(buffer, audio, sr, format=)] followed by [buffer.getvalue()] *)
  sf_write : buffer -> Z -> string -> result (list byte)
}.

(** ** The pipeline *)

Section Pipeline.

Context {L : AudioLibs}.

(** [np.max(np.abs(audio)) if audio.size else 0] *)
Definition peak (audio : buffer) : Q :=
  match map Qabs audio with
  | [] => 0
  | x :: rest => fold_left Qmax rest x
  end.

Definition _safe_normalize (audio : buffer) : buffer :=
  let peak := peak audio in
  if Qeq_bool peak 0 then audio
  else np_divide audio peak.

(** [np.where(np.abs(audio) < threshold, audio * 0.1, audio)] *)
Definition gate_where (threshold : Q) (audio : buffer) : buffer :=
  map (fun x => if Qltb (Qabs x) threshold then x * (1 # 10) else x) audio.

Definition _apply_noise_gate (audio : buffer) (strength : Q) : result buffer :=
  p <- np_percentile (map Qabs audio) 20 ;;
  let threshold := p * (1 + strength) in
  let gated := gate_where threshold audio in
  Ok gated.

Definition _apply_filter (audio : buffer) (sr : Z) (cutoff : Q)
    (btype : string) (gain : Q) : result buffer :=
  wn <- py_div cutoff (inject_Z sr / 2) ;;
  '(b, a) <- signal_butter 2 wn btype ;;
  filtered <- signal_lfilter b a audio ;;
  np_add audio (np_scale filtered gain).

Definition process_audio (file_bytes : list byte) (settings : VoiceSettings)
    : result (list byte) :=
  '(audio, sr) <- librosa_load file_bytes 44100 true ;;
  audio <- (if negb (Qeq_bool (speed settings) 1)
            then time_stretch audio (py_max (1 # 2) (speed settings))
            else Ok audio) ;;
  let morph_shift := morph settings / 25 in
  let pitch_shift_ := pitch settings + morph_shift in
  audio <- (if negb (Qeq_bool pitch_shift_ 0)
            then pitch_shift audio sr pitch_shift_
            else Ok audio) ;;
  audio <- (if negb (Qeq_bool (timbre settings) 0)
            then _apply_filter audio sr 2800 "highpass" (timbre settings / 80)
            else Ok audio) ;;
  audio <- (if negb (Qeq_bool (depth settings) 0)
            then _apply_filter audio sr 180 "lowpass" (depth settings / 60)
            else Ok audio) ;;
  audio <- (if Qltb 0 (emotion settings)
            then let intensity := emotion settings / 120 in
                 Ok (map (fun x => np_tanh (x * (1 + intensity))) audio)
            else Ok audio) ;;
  audio <- (if Qltb 0 (noise_reduction settings)
            then _apply_noise_gate audio (noise_reduction settings / 100)
            else Ok audio) ;;
  audio <- (if Qltb 0 (clarity settings)
            then _apply_filter audio sr 3200 "highpass" (clarity settings / 120)
            else Ok audio) ;;
  let audio := _safe_normalize audio in
  sf_write audio sr "WAV".

(** *** The pipeline stage by stage

    [process_audio] rebinds [audio] once per stage.  The definitions below
    name those stages, in source order, so that properties of one stage and
    of the order of the stages can be stated; [process_audio_stages] shows
    that their composition is [process_audio]. *)

(** lines 46-47 *)
Definition stage_time_stretch (settings : VoiceSettings) (audio : buffer)
    : result buffer :=
  if negb (Qeq_bool (speed settings) 1)
  then time_stretch audio (py_max (1 # 2) (speed settings))
  else Ok audio.

(** lines 49-50: the semitone amount handed to [pitch_shift] *)
Definition combined_shift (settings : VoiceSettings) : Q :=
  pitch settings + morph settings / 25.

(** lines 49-52 *)
Definition stage_pitch_shift (settings : VoiceSettings) (sr : Z)
    (audio : buffer) : result buffer :=
  if negb (Qeq_bool (combined_shift settings) 0)
  then pitch_shift audio sr (combined_shift settings)
  else Ok audio.

(** lines 54-55 *)
Definition stage_timbre (settings : VoiceSettings) (sr : Z) (audio : buffer)
    : result buffer :=
  if negb (Qeq_bool (timbre settings) 0)
  then _apply_filter audio sr 2800 "highpass" (timbre settings / 80)
  else Ok audio.

(** lines 57-58 *)
Definition stage_depth (settings : VoiceSettings) (sr : Z) (audio : buffer)
    : result buffer :=
  if negb (Qeq_bool (depth settings) 0)
  then _apply_filter audio sr 180 "lowpass" (depth settings / 60)
  else Ok audio.

(** line 62: [np.tanh(audio * (1 + intensity))] *)
Definition saturate (intensity : Q) (audio : buffer) : buffer :=
  map (fun x => np_tanh (x * (1 + intensity))) audio.

(** lines 60-62 *)
Definition stage_emotion (settings : VoiceSettings) (audio : buffer)
    : result buffer :=
  if Qltb 0 (emotion settings)
  then Ok (saturate (emotion settings / 120) audio)
  else Ok audio.

(** lines 64-65 *)
Definition stage_noise_gate (settings : VoiceSettings) (audio : buffer)
    : result buffer :=
  if Qltb 0 (noise_reduction settings)
  then _apply_noise_gate audio (noise_reduction settings / 100)
  else Ok audio.

(** lines 67-68 *)
Definition stage_clarity (settings : VoiceSettings) (sr : Z) (audio : buffer)
    : result buffer :=
  if Qltb 0 (clarity settings)
  then _apply_filter audio sr 3200 "highpass" (clarity settings / 120)
  else Ok audio.

(** lines 46-70: everything between decoding and encoding; the buffer it
    returns is the one handed to [sf.write]. *)
Definition render (settings : VoiceSettings) (sr : Z) (audio : buffer)
    : result buffer :=
  audio <- stage_time_stretch settings audio ;;
  audio <- stage_pitch_shift settings sr audio ;;
  audio <- stage_timbre settings sr audio ;;
  audio <- stage_depth settings sr audio ;;
  audio <- stage_emotion settings audio ;;
  audio <- stage_noise_gate settings audio ;;
  audio <- stage_clarity settings sr audio ;;
  Ok (_safe_normalize audio).

(** The settings of the identity property. *)
Definition identity_settings : VoiceSettings :=
  mkVoiceSettings 0 0 0 1 0 0 0 0.

(** Functional update of one field (the dataclass is only ever read). *)
Definition with_speed (v : Q) (s : VoiceSettings) : VoiceSettings :=
  mkVoiceSettings (pitch s) (timbre s) (depth s) v (emotion s) (morph s)
                  (noise_reduction s) (clarity s).

Definition with_pitch_morph (p m : Q) (s : VoiceSettings) : VoiceSettings :=
  mkVoiceSettings p (timbre s) (depth s) (speed s) (emotion s) m
                  (noise_reduction s) (clarity s).

End Pipeline.

(** ** An executable stand-in for the libraries

    A small implementation of [AudioLibs] on which the pipeline can be run:
    8-bit unsigned PCM as the container, nearest-sample resampling for the
    stretch and the shift, scipy's difference equation for [lfilter],
    numpy's linear-interpolation percentile, and a rational soft clip in
    place of tanh.  The examples and the instances of the theorems at
    concrete inputs run on it; no theorem depends on it. *)

Module Bench.

Definition sample_of_byte (b : byte) : Q :=
  (Z.of_N (Byte.to_N b) - 128) # 128.

Definition byte_of_sample (x : Q) : byte :=
  let v := Z.max 0 (Z.min 255 (Qfloor (x * 127 + (1 # 2)) + 128)) in
  match Byte.of_N (Z.to_N v) with
  | Some b => b
  | None => x00
  end.

Definition load (data : list byte) (sr : Z) (mono : bool)
    : result (buffer * Z) :=
  match data with
  | [] => Raised (Exn "LibsndfileError" "Format not recognised")
  | _ => Ok (map sample_of_byte data, sr)
  end.

(** Sample [i] of the output is sample [floor (i * step)] of the input. *)
Definition resample (step : Q) (n_out : nat) (audio : buffer) : buffer :=
  map (fun i => nth (Z.to_nat (Qfloor (inject_Z (Z.of_nat i) * step))
                       mod Nat.max 1 (length audio)) audio 0)
      (seq 0 n_out).

Definition stretch (audio : buffer) (rate : Q) : result buffer :=
  if Qltb 0 rate
  then Ok (resample rate
             (Z.to_nat (Qfloor (inject_Z (Z.of_nat (length audio)) / rate)))
             audio)
  else Raised (Exn "ParameterError" "rate must be a positive number").

Definition shift (audio : buffer) (sr : Z) (n_steps : Q) : result buffer :=
  if Qltb (-12) n_steps
  then Ok (resample (1 + n_steps / 12) (length audio) audio)
  else Raised (Exn "ParameterError" "n_steps out of range").

Definition butter (order : Z) (wn : Q) (btype : string)
    : result (list Q * list Q) :=
  if Qltb 0 wn && Qltb wn 1 then
    if String.eqb btype "lowpass"
    then Ok ([wn / 2; wn / 2; 0], [1; wn - 1; 0])
    else if String.eqb btype "highpass"
    then Ok ([1 - wn / 2; wn / 2 - 1; 0], [1; wn - 1; 0])
    else Raised (Exn "ValueError" "unknown filter type")
  else Raised (Exn "ValueError"
                 "Digital filter critical frequencies must be 0 < Wn < 1").

Fixpoint dot (c v : list Q) : Q :=
  match c, v with
  | k :: c', x :: v' => k * x + dot c' v'
  | _, _ => 0
  end.

(** [a0 * y(n) = sum_k b(k) x(n-k) - sum_(k>=1) a(k) y(n-k)];
    [xs] and [ys] hold the earlier inputs and outputs, latest first. *)
Fixpoint lfilter_from (b a_tail : list Q) (a0 : Q) (xs ys x : buffer)
    : buffer :=
  match x with
  | [] => []
  | x0 :: x' =>
      let y0 := Qred ((dot b (x0 :: xs) - dot a_tail ys) / a0) in
      y0 :: lfilter_from b a_tail a0 (x0 :: xs) (y0 :: ys) x'
  end.

Definition lfilter (b a : list Q) (x : buffer) : result buffer :=
  match a with
  | a0 :: a_tail =>
      if Qeq_bool a0 0
      then Raised (Exn "ValueError" "a(0) must be nonzero")
      else Ok (lfilter_from b a_tail a0 [] [] x)
  | [] => Raised (Exn "ValueError" "a must be nonempty")
  end.

Definition soft_clip (x : Q) : Q := Qred (x / (1 + Qabs x)).

Fixpoint insert_sorted (x : Q) (l : list Q) : list Q :=
  match l with
  | [] => [x]
  | y :: l' => if Qle_bool x y then x :: l else y :: insert_sorted x l'
  end.

Definition sort (l : list Q) : list Q := fold_right insert_sorted [] l.

(** numpy's default (linear) method: the value at the fractional index
    [q / 100 * (n - 1)] of the sorted array. *)
Definition percentile (a : buffer) (q : Q) : result Q :=
  match a with
  | [] => Raised (Exn "IndexError" "index -1 is out of bounds")
  | _ =>
      let s := sort a in
      let pos := q / 100 * inject_Z (Z.of_nat (length a) - 1) in
      let lo := Z.to_nat (Qfloor pos) in
      let hi := Nat.min (S lo) (length a - 1) in
      let frac := pos - inject_Z (Qfloor pos) in
      Ok (Qred (nth lo s 0 + (nth hi s 0 - nth lo s 0) * frac))
  end.

Definition write (audio : buffer) (sr : Z) (format : string)
    : result (list byte) :=
  if String.eqb format "WAV"
  then Ok (map byte_of_sample audio)
  else Raised (Exn "ValueError" "unknown format").

#[export] Instance libs : AudioLibs := {|
  librosa_load := load ;
  time_stretch := stretch ;
  pitch_shift := shift ;
  signal_butter := butter ;
  signal_lfilter := lfilter ;
  np_tanh := soft_clip ;
  np_percentile := percentile ;
  sf_write := write
|}.

End Bench.

(** ** Statements used below *)

(** Buffers equal sample by sample, as rationals. *)
Definition buffer_eq (a b : buffer) : Prop := Forall2 Qeq a b.

(** The settings the HTTP layer uses when a caller omits every field. *)
Definition default_settings : VoiceSettings :=
  mkVoiceSettings 0 0 0 1 50 0 40 60.

(** Functional update of the three fields guarded by [> 0]. *)
Definition with_dynamics (e n c : Q) (s : VoiceSettings) : VoiceSettings :=
  mkVoiceSettings (pitch s) (timbre s) (depth s) (speed s) e (morph s) n c.

(** ** The HTTP layer: backend/main.py and backend/models.py

    The handler [convert_audio] reads the upload, builds the settings from
    the form fields, runs [process_audio], records a job row and answers
    with the processed bytes.  The database is the list of rows committed so
    far, threaded through the handler; it is taken to accept every insert.
    The columns the database engine fills in on insert ([id], [created_at])
    are not represented. *)

(** models.py, [RenderJob]: the columns the handler or the ORM defaults
    decide. *)
Record RenderJob : Type := mkRenderJob {
  user_id : option Z ;
  filename : string ;
  status : string ;
  consent_confirmed : bool
}.

(** [RenderJob(filename=, status=, consent_confirmed=)]: a keyword left out
    takes the column's default ([status] "completed", [consent_confirmed]
    False); [user_id] is nullable and never given. *)
Definition new_RenderJob (name : string) (st : option string)
    (consent : option bool) : RenderJob :=
  mkRenderJob None name
    (match st with Some v => v | None => "completed"%string end)
    (match consent with Some v => v | None => false end).

(** The uploaded file: [audio.filename] and the bytes of [audio.read()]. *)
Record UploadFile : Type := mkUploadFile {
  upload_filename : option string ;
  upload_content : list byte
}.

(** The form fields of the request; [None] is a field the caller left out. *)
Record ConvertForm : Type := mkConvertForm {
  form_pitch : option Q ;
  form_timbre : option Q ;
  form_depth : option Q ;
  form_speed : option Q ;
  form_emotion : option Q ;
  form_morph : option Q ;
  form_noiseReduction : option Q ;
  form_clarity : option Q
}.

Record StreamingResponse : Type := mkStreamingResponse {
  body_chunks : list (list byte) ;
  media_type : string ;
  headers : list (string * string)
}.

(** A parameter with a default in the handler's signature. *)
Definition form_value (field : option Q) (default : Q) : Q :=
  match field with
  | Some v => v
  | None => default
  end.

(** Python's [audio.filename or "upload"]: [None] and the empty string are
    both falsy. *)
Definition filename_or_upload (name : option string) : string :=
  match name with
  | None => "upload"
  | Some EmptyString => "upload"
  | Some n => n
  end.

Section Http.

Context {L : AudioLibs}.

(** main.py, lines 51-60 *)
Definition form_settings (form : ConvertForm) : VoiceSettings :=
  mkVoiceSettings
    (form_value (form_pitch form) 0)
    (form_value (form_timbre form) 0)
    (form_value (form_depth form) 0)
    (form_value (form_speed form) 1)
    (form_value (form_emotion form) 50)
    (form_value (form_morph form) 0)
    (form_value (form_noiseReduction form) 40)
    (form_value (form_clarity form) 60).

(** main.py, lines 38-79.  An exception of [process_audio] leaves the
    handler before the session is opened. *)
Definition convert_audio (audio : UploadFile) (form : ConvertForm)
    (db : list RenderJob) : result StreamingResponse * list RenderJob :=
  let file_bytes := upload_content audio in
  let settings := form_settings form in
  match process_audio file_bytes settings with
  | Raised e => (Raised e, db)
  | Ok processed_bytes =>
      let db' :=
        db ++ [new_RenderJob (filename_or_upload (upload_filename audio))
                 (Some "completed"%string) (Some true)] in
      let headers :=
        [("Content-Disposition"%string,
          "attachment; filename=voiceforge-output.wav"%string)] in
      (Ok (mkStreamingResponse [processed_bytes] "audio/wav" headers), db')
  end.

(** The database after a sequence of requests, handled one after another. *)
Definition serve (requests : list (UploadFile * ConvertForm))
    (db : list RenderJob) : list RenderJob :=
  fold_left (fun d r => snd (convert_audio (fst r) (snd r) d)) requests db.

(** The requests of a sequence whose conversion succeeds. *)
Definition succeeds (r : UploadFile * ConvertForm) : bool :=
  match process_audio (upload_content (fst r)) (form_settings (snd r)) with
  | Ok _ => true
  | Raised _ => false
  end.

End Http.

(** A request that sets no form field. *)
Definition empty_form : ConvertForm :=
  mkConvertForm None None None None None None None None.

(** ** A second embedding, with overflow

    The embedding above computes with exact rationals, so no value ever
    leaves the range of a float.  [Ieee] repeats the pipeline on a carrier
    with the IEEE special values: a finite value is a rational, a result
    whose magnitude exceeds the largest float64 is an infinity, and the
    undefined operations give NaN.  Rounding inside the range is still not
    modelled.  The settings stay rationals: they are finite floats. *)

Module Ieee.

Inductive xfloat : Type :=
| Fin (q : Q)
| Inf (negative : bool)
| NaN.

Definition xbuffer : Type := list xfloat.

(** The largest float64, [(2 - 2^-52) * 2^1023]. *)
Definition max_float : Q := inject_Z (2 ^ 1024 - 2 ^ 971).

Definition overflow (q : Q) : xfloat :=
  if Qltb max_float (Qabs q) then Inf (Qltb q 0) else Fin q.

Definition xadd (a b : xfloat) : xfloat :=
  match a, b with
  | NaN, _ | _, NaN => NaN
  | Fin x, Fin y => overflow (x + y)
  | Inf s, Fin _ | Fin _, Inf s => Inf s
  | Inf s, Inf t => if Bool.eqb s t then Inf s else NaN
  end.

Definition xmul (a b : xfloat) : xfloat :=
  match a, b with
  | NaN, _ | _, NaN => NaN
  | Fin x, Fin y => overflow (x * y)
  | Inf s, Fin y | Fin y, Inf s =>
      if Qeq_bool y 0 then NaN else Inf (xorb s (Qltb y 0))
  | Inf s, Inf t => Inf (xorb s t)
  end.

(** numpy's division: [x / 0] is an infinity, [0 / 0] is NaN. *)
Definition xdiv (a b : xfloat) : xfloat :=
  match a, b with
  | NaN, _ | _, NaN => NaN
  | Fin x, Fin y =>
      if Qeq_bool y 0
      then (if Qeq_bool x 0 then NaN else Inf (Qltb x 0))
      else overflow (x / y)
  | Fin _, Inf _ => Fin 0
  | Inf s, Fin y => Inf (xorb s (Qltb y 0))
  | Inf _, Inf _ => NaN
  end.

Definition xabs (a : xfloat) : xfloat :=
  match a with
  | Fin x => Fin (Qabs x)
  | Inf _ => Inf false
  | NaN => NaN
  end.

(** [a < b]; every comparison with NaN is false. *)
Definition xltb (a b : xfloat) : bool :=
  match a, b with
  | NaN, _ | _, NaN => false
  | Fin x, Fin y => Qltb x y
  | Fin _, Inf t => negb t
  | Inf s, Fin _ => s
  | Inf s, Inf t => s && negb t
  end.

(** [a == b] *)
Definition xeqb (a b : xfloat) : bool :=
  match a, b with
  | Fin x, Fin y => Qeq_bool x y
  | Inf s, Inf t => Bool.eqb s t
  | _, _ => false
  end.

(** One step of [np.max], which propagates NaN. *)
Definition xmax (a b : xfloat) : xfloat :=
  match a, b with
  | NaN, _ | _, NaN => NaN
  | _, _ => if xltb a b then b else a
  end.

Fixpoint zip_add (a b : xbuffer) : xbuffer :=
  match a, b with
  | x :: a', y :: b' => xadd x y :: zip_add a' b'
  | _, _ => []
  end.

Definition np_add (a b : xbuffer) : result xbuffer :=
  if Nat.eqb (length a) (length b) then Ok (zip_add a b)
  else match a, b with
       | _, [y] => Ok (map (fun x => xadd x y) a)
       | [x], _ => Ok (map (fun y => xadd x y) b)
       | _, _ => Raised BroadcastError
       end.

Class AudioLibs : Type := {
  librosa_load : list byte -> Z -> bool -> result (xbuffer * Z) ;
  time_stretch : xbuffer -> Q -> result xbuffer ;
  pitch_shift : xbuffer -> Z -> xfloat -> result xbuffer ;
  signal_butter : Z -> Q -> string -> result (list Q * list Q) ;
  signal_lfilter : list Q -> list Q -> xbuffer -> result xbuffer ;
  np_tanh : xfloat -> xfloat ;
  np_percentile : xbuffer -> Q -> result xfloat ;
  sf_write : xbuffer -> Z -> string -> result (list byte)
}.

Section Pipeline.

Context {L : AudioLibs}.

(** [np.max(np.abs(audio)) if audio.size else 0] *)
Definition peak (audio : xbuffer) : xfloat :=
  match map xabs audio with
  | [] => Fin 0
  | x :: rest => fold_left xmax rest x
  end.

Definition _safe_normalize (audio : xbuffer) : xbuffer :=
  let peak := peak audio in
  if xeqb peak (Fin 0) then audio
  else map (fun x => xdiv x peak) audio.

Definition _apply_noise_gate (audio : xbuffer) (strength : Q)
    : result xbuffer :=
  p <- np_percentile (map xabs audio) 20 ;;
  let threshold := xmul p (Fin (1 + strength)) in
  let gated :=
    map (fun x => if xltb (xabs x) threshold
                  then xmul x (Fin (1 # 10)) else x) audio in
  Ok gated.

Definition _apply_filter (audio : xbuffer) (sr : Z) (cutoff : Q)
    (btype : string) (gain : Q) : result xbuffer :=
  wn <- py_div cutoff (inject_Z sr / 2) ;;
  '(b, a) <- signal_butter 2 wn btype ;;
  filtered <- signal_lfilter b a audio ;;
  np_add audio (map (fun f => xmul f (Fin gain)) filtered).

(** [process_audio], lines 46-68: the buffer that reaches the normalize
    stage. *)
Definition stages (settings : VoiceSettings) (sr : Z) (audio : xbuffer)
    : result xbuffer :=
  audio <- (if negb (Qeq_bool (speed settings) 1)
            then time_stretch audio (py_max (1 # 2) (speed settings))
            else Ok audio) ;;
  let morph_shift := morph settings / 25 in
  let pitch_shift_ := xadd (Fin (pitch settings)) (Fin morph_shift) in
  audio <- (if negb (xeqb pitch_shift_ (Fin 0))
            then pitch_shift audio sr pitch_shift_
            else Ok audio) ;;
  audio <- (if negb (Qeq_bool (timbre settings) 0)
            then _apply_filter audio sr 2800 "highpass" (timbre settings / 80)
            else Ok audio) ;;
  audio <- (if negb (Qeq_bool (depth settings) 0)
            then _apply_filter audio sr 180 "lowpass" (depth settings / 60)
            else Ok audio) ;;
  audio <- (if Qltb 0 (emotion settings)
            then let intensity := emotion settings / 120 in
                 Ok (map (fun x => np_tanh (xmul x (Fin (1 + intensity))))
                         audio)
            else Ok audio) ;;
  audio <- (if Qltb 0 (noise_reduction settings)
            then _apply_noise_gate audio (noise_reduction settings / 100)
            else Ok audio) ;;
  (if Qltb 0 (clarity settings)
   then _apply_filter audio sr 3200 "highpass" (clarity settings / 120)
   else Ok audio).

(** [process_audio], lines 43-74: decode, [stages], normalize, encode. *)
Definition process_audio (file_bytes : list byte) (settings : VoiceSettings)
    : result (list byte) :=
  '(audio, sr) <- librosa_load file_bytes 44100 true ;;
  audio <- stages settings sr audio ;;
  let audio := _safe_normalize audio in
  sf_write audio sr "WAV".

End Pipeline.

(** A sample that is a number of absolute value at most 1. *)
Definition in_unit (y : xfloat) : Prop :=
  exists q : Q, y = Fin q /\ Qabs q <= 1.

(** The output-range property as the specification words it: whatever the
    input and the settings, every sample handed to the encoder is in
    [[-1, 1]]. *)
Definition output_in_range (L : AudioLibs) : Prop :=
  forall (file_bytes : list byte) (s : VoiceSettings) (audio pre : xbuffer)
         (sr : Z),
    librosa_load file_bytes 44100 true = Ok (audio, sr) ->
    stages s sr audio = Ok pre ->
    Forall in_unit (_safe_normalize pre).

End Ieee.

(** The stand-in libraries of [Bench] on the carrier with overflow. *)
Module IeeeBench.

Import Ieee.

Definition load (data : list byte) (sr : Z) (mono : bool)
    : result (xbuffer * Z) :=
  match data with
  | [] => Raised (Exn "LibsndfileError" "Format not recognised")
  | _ => Ok (map (fun b => Fin (Bench.sample_of_byte b)) data, sr)
  end.

Definition resample (step : Q) (n_out : nat) (audio : xbuffer) : xbuffer :=
  map (fun i => nth (Z.to_nat (Qfloor (inject_Z (Z.of_nat i) * step))
                       mod Nat.max 1 (length audio)) audio (Fin 0))
      (seq 0 n_out).

Definition stretch (audio : xbuffer) (rate : Q) : result xbuffer :=
  if Qltb 0 rate
  then Ok (resample rate
             (Z.to_nat (Qfloor (inject_Z (Z.of_nat (length audio)) / rate)))
             audio)
  else Raised (Exn "ParameterError" "rate must be a positive number").

Definition shift (audio : xbuffer) (sr : Z) (n_steps : xfloat)
    : result xbuffer :=
  match n_steps with
  | Fin n =>
      if Qltb (-12) n
      then Ok (resample (1 + n / 12) (length audio) audio)
      else Raised (Exn "ParameterError" "n_steps out of range")
  | _ => Raised (Exn "ParameterError" "n_steps must be finite")
  end.

Definition xred (a : xfloat) : xfloat :=
  match a with
  | Fin q => Fin (Qred q)
  | _ => a
  end.

Fixpoint dot (c : list Q) (v : xbuffer) : xfloat :=
  match c, v with
  | k :: c', x :: v' => xadd (xmul (Fin k) x) (dot c' v')
  | _, _ => Fin 0
  end.

Fixpoint lfilter_from (b a_tail : list Q) (a0 : Q) (xs ys x : xbuffer)
    : xbuffer :=
  match x with
  | [] => []
  | x0 :: x' =>
      let y0 :=
        xred (xdiv (xadd (dot b (x0 :: xs))
                         (xmul (Fin (-1)) (dot a_tail ys)))
                   (Fin a0)) in
      y0 :: lfilter_from b a_tail a0 (x0 :: xs) (y0 :: ys) x'
  end.

Definition lfilter (b a : list Q) (x : xbuffer) : result xbuffer :=
  match a with
  | a0 :: a_tail =>
      if Qeq_bool a0 0
      then Raised (Exn "ValueError" "a(0) must be nonzero")
      else Ok (lfilter_from b a_tail a0 [] [] x)
  | [] => Raised (Exn "ValueError" "a must be nonempty")
  end.

Definition soft_clip (a : xfloat) : xfloat :=
  match a with
  | Fin x => Fin (Bench.soft_clip x)
  | Inf s => Fin (if s then -1 else 1)
  | NaN => NaN
  end.

Fixpoint finite_part (a : xbuffer) : option (list Q) :=
  match a with
  | [] => Some []
  | Fin q :: a' => option_map (cons q) (finite_part a')
  | _ :: _ => None
  end.

Definition percentile (a : xbuffer) (q : Q) : result xfloat :=
  match finite_part a with
  | Some l => p <- Bench.percentile l q ;; Ok (Fin p)
  | None => Ok NaN
  end.

Definition byte_of_sample (a : xfloat) : byte :=
  match a with
  | Fin q => Bench.byte_of_sample q
  | Inf true => x00
  | Inf false => xff
  | NaN => x80
  end.

Definition write (audio : xbuffer) (sr : Z) (format : string)
    : result (list byte) :=
  if String.eqb format "WAV"
  then Ok (map byte_of_sample audio)
  else Raised (Exn "ValueError" "unknown format").

#[export] Instance libs : AudioLibs := {|
  librosa_load := load ;
  time_stretch := stretch ;
  pitch_shift := shift ;
  signal_butter := Bench.butter ;
  signal_lfilter := lfilter ;
  np_tanh := soft_clip ;
  np_percentile := percentile ;
  sf_write := write
|}.

(** Settings with two large but finite gains: depth = clarity = 1e308. *)
Definition loud_settings : VoiceSettings :=
  mkVoiceSettings 0 0 (inject_Z (10 ^ 308)) 1 0 0 0 (inject_Z (10 ^ 308)).

End IeeeBench.

(** ** Basic facts *)

Lemma Qltb_lt (x y : Q) : Qltb x y = true <-> x < y.
Proof. unfold Qltb, Qlt. apply Z.ltb_lt. Qed.

Lemma Qltb_ge (x y : Q) : Qltb x y = false <-> y <= x.
Proof. unfold Qltb, Qle. apply Z.ltb_ge. Qed.

Lemma Qeq_bool_false (x y : Q) : ~ x == y -> Qeq_bool x y = false.
Proof.
  intro H. destruct (Qeq_bool x y) eqn:E; [|reflexivity].
  apply Qeq_bool_eq in E. contradiction.
Qed.

Lemma Qmax_cases (x y : Q) : Qmax x y = x \/ Qmax x y = y.
Proof.
  unfold Qmax, GenericMinMax.gmax. destruct (x ?= y); auto.
Qed.

Lemma fold_max_ge_init (l : list Q) : forall m, m <= fold_left Qmax l m.
Proof.
  induction l as [|y l IH]; intro m; simpl.
  - apply Qle_refl.
  - eapply Qle_trans; [apply (Q.le_max_l m y)|apply IH].
Qed.

Lemma fold_max_ge_elem (l : list Q) :
  forall m x, In x l -> x <= fold_left Qmax l m.
Proof.
  induction l as [|y l IH]; intros m x Hin; simpl in *.
  - contradiction.
  - destruct Hin as [->|Hin].
    + eapply Qle_trans; [apply (Q.le_max_r m x)|apply fold_max_ge_init].
    + apply IH, Hin.
Qed.

Lemma fold_max_in (l : list Q) :
  forall m, fold_left Qmax l m = m \/ In (fold_left Qmax l m) l.
Proof.
  induction l as [|y l IH]; intro m; simpl.
  - left; reflexivity.
  - destruct (IH (Qmax m y)) as [E|HIn].
    + rewrite E. destruct (Qmax_cases m y) as [->| ->]; auto.
    + auto.
Qed.

(** ** The peak of a buffer *)

Lemma peak_upper (audio : buffer) (x : Q) :
  In x audio -> Qabs x <= peak audio.
Proof.
  unfold peak. destruct audio as [|y rest]; simpl; [contradiction|].
  intros [->|Hin].
  - apply fold_max_ge_init.
  - apply fold_max_ge_elem, in_map, Hin.
Qed.

Lemma peak_attained (audio : buffer) :
  audio <> [] -> exists x, In x audio /\ peak audio = Qabs x.
Proof.
  unfold peak. destruct audio as [|y rest]; simpl; [congruence|].
  intros _. destruct (fold_max_in (map Qabs rest) (Qabs y)) as [E|Hin].
  - exists y; auto.
  - apply in_map_iff in Hin. destruct Hin as [x [Ex Hx]].
    exists x; split; [auto|congruence].
Qed.

Lemma peak_nonneg (audio : buffer) : 0 <= peak audio.
Proof.
  destruct audio as [|y rest].
  - apply Qle_refl.
  - destruct (peak_attained (y :: rest)) as [x [_ ->]]; [discriminate|].
    apply Qabs_nonneg.
Qed.

Lemma peak_zero_samples (audio : buffer) :
  peak audio == 0 <-> Forall (fun x => x == 0) audio.
Proof.
  split.
  - intro Hp. apply Forall_forall. intros x Hin.
    pose proof (peak_upper audio x Hin) as Hle. rewrite Hp in Hle.
    pose proof (Qabs_nonneg x) as Hge.
    assert (Hz : Qabs x == 0) by (apply Qle_antisym; assumption).
    revert Hz. apply Qabs_case; intros; lra.
  - intro Hall. destruct audio as [|y rest]; [reflexivity|].
    destruct (peak_attained (y :: rest)) as [x [Hin ->]]; [discriminate|].
    rewrite Forall_forall in Hall. rewrite (Hall x Hin). reflexivity.
Qed.

(** ** Normalisation *)

Lemma Qabs_div_pos (x p : Q) : 0 < p -> Qabs (x / p) == Qabs x / p.
Proof.
  intro Hp. unfold Qdiv. rewrite Qabs_Qmult, Qabs_Qinv.
  rewrite (Qabs_pos p) by (apply Qlt_le_weak, Hp). reflexivity.
Qed.

Lemma Qdiv_le_pos (a b p : Q) : 0 < p -> a <= b -> a / p <= b / p.
Proof.
  intros Hp Hab. unfold Qdiv. apply Qmult_le_compat_r; [exact Hab|].
  apply Qlt_le_weak, Qinv_lt_0_compat, Hp.
Qed.

Lemma peak_pos (audio : buffer) : ~ peak audio == 0 -> 0 < peak audio.
Proof.
  intro Hnz. pose proof (peak_nonneg audio) as Hge.
  apply Qle_lteq in Hge. destruct Hge as [Hlt|Heq]; [exact Hlt|].
  exfalso. apply Hnz. symmetry. exact Heq.
Qed.

Lemma normalize_zero_peak (audio : buffer) :
  peak audio == 0 -> _safe_normalize audio = audio.
Proof.
  intro Hp. unfold _safe_normalize.
  apply Qeq_bool_iff in Hp. rewrite Hp. reflexivity.
Qed.

Lemma normalize_nonzero_peak (audio : buffer) :
  ~ peak audio == 0 ->
  _safe_normalize audio = map (fun x => x / peak audio) audio.
Proof.
  intro Hp. unfold _safe_normalize.
  rewrite (Qeq_bool_false _ _ Hp). reflexivity.
Qed.

Lemma peak_divide (audio : buffer) (p : Q) :
  0 < p -> peak (np_divide audio p) == peak audio / p.
Proof.
  intro Hp. destruct audio as [|y rest].
  - simpl. unfold peak; simpl. unfold Qdiv. rewrite Qmult_0_l. reflexivity.
  - set (a := y :: rest). apply Qle_antisym.
    + destruct (peak_attained (np_divide a p)) as [z [Hin ->]];
        [discriminate|].
      unfold np_divide in Hin. apply in_map_iff in Hin.
      destruct Hin as [x [<- Hx]].
      rewrite Qabs_div_pos by exact Hp.
      apply Qdiv_le_pos; [exact Hp|apply peak_upper, Hx].
    + destruct (peak_attained a) as [x [Hin ->]]; [discriminate|].
      rewrite <- Qabs_div_pos by exact Hp.
      apply peak_upper. unfold np_divide.
      apply (in_map (fun x => x / p)), Hin.
Qed.

Lemma peak_normalized (audio : buffer) :
  ~ peak audio == 0 -> peak (_safe_normalize audio) == 1.
Proof.
  intro Hnz. rewrite (normalize_nonzero_peak _ Hnz).
  pose proof (peak_pos _ Hnz) as Hp.
  change (map (fun x => x / peak audio) audio)
    with (np_divide audio (peak audio)).
  rewrite (peak_divide _ _ Hp). field. exact Hnz.
Qed.

Lemma normalize_bounded (audio : buffer) :
  Forall (fun x => Qabs x <= 1) (_safe_normalize audio).
Proof.
  apply Forall_forall. intros x Hin.
  destruct (Qeq_dec (peak audio) 0) as [Hz|Hnz].
  - rewrite (normalize_zero_peak _ Hz) in Hin.
    apply Qle_trans with (peak audio); [apply peak_upper, Hin|].
    rewrite Hz. discriminate.
  - apply Qle_trans with (peak (_safe_normalize audio));
      [apply peak_upper, Hin|].
    rewrite (peak_normalized _ Hnz). apply Qle_refl.
Qed.

Lemma normalize_length (audio : buffer) :
  length (_safe_normalize audio) = length audio.
Proof.
  unfold _safe_normalize, np_divide.
  destruct (Qeq_bool (peak audio) 0); [reflexivity|apply length_map].
Qed.

(** ** The pipeline as a composition of its stages *)

Section Stages.

Context {L : AudioLibs}.

Lemma bind_ok_inv {A B : Type} (c : result A) (f : A -> result B) (b : B) :
  bind c f = Ok b -> exists a, c = Ok a /\ f a = Ok b.
Proof. destruct c as [a|e]; simpl; [eauto|discriminate]. Qed.

Lemma process_audio_inline (file_bytes : list byte) (s : VoiceSettings) :
  process_audio file_bytes s =
  ('(audio, sr) <- librosa_load file_bytes 44100 true ;;
   a1 <- stage_time_stretch s audio ;;
   a2 <- stage_pitch_shift s sr a1 ;;
   a3 <- stage_timbre s sr a2 ;;
   a4 <- stage_depth s sr a3 ;;
   a5 <- stage_emotion s a4 ;;
   a6 <- stage_noise_gate s a5 ;;
   a7 <- stage_clarity s sr a6 ;;
   sf_write (_safe_normalize a7) sr "WAV").
Proof. reflexivity. Qed.

Lemma process_audio_stages (file_bytes : list byte) (s : VoiceSettings) :
  process_audio file_bytes s =
  ('(audio, sr) <- librosa_load file_bytes 44100 true ;;
   out <- render s sr audio ;;
   sf_write out sr "WAV").
Proof.
  rewrite process_audio_inline. unfold render.
  destruct (librosa_load file_bytes 44100 true) as [[audio sr]|e];
    [cbn [bind]|reflexivity].
  destruct (stage_time_stretch s audio) as [a1|]; [cbn [bind]|reflexivity].
  destruct (stage_pitch_shift s sr a1) as [a2|]; [cbn [bind]|reflexivity].
  destruct (stage_timbre s sr a2) as [a3|]; [cbn [bind]|reflexivity].
  destruct (stage_depth s sr a3) as [a4|]; [cbn [bind]|reflexivity].
  destruct (stage_emotion s a4) as [a5|]; [cbn [bind]|reflexivity].
  destruct (stage_noise_gate s a5) as [a6|]; [cbn [bind]|reflexivity].
  destruct (stage_clarity s sr a6) as [a7|]; reflexivity.
Qed.

Lemma render_normalized (s : VoiceSettings) (sr : Z) (audio out : buffer) :
  render s sr audio = Ok out -> exists pre, out = _safe_normalize pre.
Proof.
  unfold render. intro H.
  repeat (apply bind_ok_inv in H; destruct H as [? [_ H]]).
  injection H as <-. eauto.
Qed.

End Stages.

(** ** Claims about normalisation *)

Lemma divide_by_one (l : buffer) (q : Q) :
  q == 1 -> buffer_eq (map (fun x => x / q) l) l.
Proof.
  intro Hq. induction l as [|x l IH]; simpl; constructor.
  - rewrite Hq. field.
  - exact IH.
Qed.

Lemma buffer_eq_refl (l : buffer) : buffer_eq l l.
Proof. induction l; constructor; [reflexivity|assumption]. Qed.

(** On finite buffers the embedding with overflow computes what the exact
    one computes: normalising never leaves the range of a float. *)

Lemma one_le_max_float : 1 <= Ieee.max_float.
Proof. vm_compute. discriminate. Qed.

Lemma overflow_small (q : Q) : Qabs q <= 1 -> Ieee.overflow q = Ieee.Fin q.
Proof.
  intro H. unfold Ieee.overflow.
  assert (Hb : Qltb Ieee.max_float (Qabs q) = false).
  { apply Qltb_ge. eapply Qle_trans; [exact H|apply one_le_max_float]. }
  rewrite Hb. reflexivity.
Qed.

Lemma xmax_finite (a b : Q) :
  Ieee.xmax (Ieee.Fin a) (Ieee.Fin b) = Ieee.Fin (Qmax a b).
Proof.
  unfold Ieee.xmax, Ieee.xltb, Qltb, Qmax, GenericMinMax.gmax, Qcompare,
    Z.ltb.
  destruct (Qnum a * QDen b ?= Qnum b * QDen a)%Z; reflexivity.
Qed.

Lemma fold_xmax_finite (l : list Q) :
  forall m, fold_left Ieee.xmax (map Ieee.Fin l) (Ieee.Fin m)
            = Ieee.Fin (fold_left Qmax l m).
Proof.
  induction l as [|x l IH]; intro m; cbn [fold_left map]; [reflexivity|].
  rewrite xmax_finite. apply IH.
Qed.

Lemma ieee_peak_finite (l : buffer) :
  Ieee.peak (map Ieee.Fin l) = Ieee.Fin (peak l).
Proof.
  unfold Ieee.peak, peak. destruct l as [|x l]; [reflexivity|].
  cbn [map Ieee.xabs]. rewrite map_map.
  change (map (fun y => Ieee.xabs (Ieee.Fin y)) l)
    with (map (fun y => Ieee.Fin (Qabs y)) l).
  rewrite <- (map_map Qabs Ieee.Fin). apply fold_xmax_finite.
Qed.

Lemma ieee_normalize_finite (l : buffer) :
  Ieee._safe_normalize (map Ieee.Fin l) = map Ieee.Fin (_safe_normalize l).
Proof.
  pose proof (normalize_bounded l) as Hb. rewrite Forall_forall in Hb.
  unfold Ieee._safe_normalize, _safe_normalize, np_divide in *.
  rewrite ieee_peak_finite. cbn [Ieee.xeqb].
  destruct (Qeq_bool (peak l) 0) eqn:E; [reflexivity|].
  rewrite !map_map. apply map_ext_in. intros x Hx.
  cbn [Ieee.xdiv]. rewrite E. apply overflow_small.
  apply Hb. apply (in_map (fun y => y / peak l)), Hx.
Qed.

Lemma buffer_eq_map (f g : Q -> Q) (l : buffer) :
  (forall x, In x l -> f x == g x) -> buffer_eq (map f l) (map g l).
Proof.
  induction l as [|x l IH]; intro H; simpl; constructor.
  - apply H. left; reflexivity.
  - apply IH. intros y Hy. apply H. right; exact Hy.
Qed.

Lemma peak_is_the_maximum (audio : buffer) (m : Q) :
  (forall x, In x audio -> Qabs x <= m) ->
  (exists x, In x audio /\ Qabs x == m) ->
  peak audio == m.
Proof.
  intros Hub [x1 [Hin1 Hx1]]. apply Qle_antisym.
  - destruct (peak_attained audio) as [x0 [Hin0 ->]].
    + intro Hnil. rewrite Hnil in Hin1. contradiction.
    + apply Hub, Hin0.
  - rewrite <- Hx1. apply peak_upper, Hin1.
Qed.

(** C8. Silence safety of normalize: a buffer whose samples are all zero
    (the empty buffer included) is returned unchanged, and no division
    takes place; a buffer whose largest absolute sample value m is not zero
    has every sample divided by m, after which no sample exceeds 1 in
    absolute value and some sample attains exactly 1.  Computed with the
    IEEE special values, normalising a finite buffer gives the same finite
    samples: no infinity and no NaN arises, the zero buffer included. *)
Theorem C8_normalize_silence_safe (audio : buffer) :
  (Forall (fun x => x == 0) audio -> _safe_normalize audio = audio) /\
  (forall m : Q,
     (forall x, In x audio -> Qabs x <= m) ->
     (exists x, In x audio /\ Qabs x == m) ->
     ~ m == 0 ->
     buffer_eq (_safe_normalize audio) (map (fun x => x / m) audio) /\
     Forall (fun y => Qabs y <= 1) (_safe_normalize audio) /\
     exists y, In y (_safe_normalize audio) /\ Qabs y == 1) /\
  Ieee._safe_normalize (map Ieee.Fin audio)
    = map Ieee.Fin (_safe_normalize audio).
Proof.
  split; [|split; [|apply ieee_normalize_finite]].
  - intro Hall. apply normalize_zero_peak, peak_zero_samples, Hall.
  - intros m Hub Hatt Hm.
    pose proof (peak_is_the_maximum audio m Hub Hatt) as Hpk.
    assert (Hnz : ~ peak audio == 0).
    { rewrite Hpk. exact Hm. }
    split; [|split].
    + rewrite (normalize_nonzero_peak _ Hnz). apply buffer_eq_map.
      intros x _. rewrite Hpk. reflexivity.
    + apply normalize_bounded.
    + pose proof (peak_normalized _ Hnz) as H1.
      destruct (peak_attained (_safe_normalize audio)) as [y [Hin Hy]].
      * intro Hnil. rewrite Hnil in H1. discriminate.
      * exists y. split; [exact Hin|]. rewrite <- Hy. exact H1.
Qed.

(** C9. Normalization idempotence: normalising twice gives, sample by
    sample, the result of normalising once. *)
Theorem C9_normalize_idempotent (audio : buffer) :
  buffer_eq (_safe_normalize (_safe_normalize audio)) (_safe_normalize audio).
Proof.
  destruct (Qeq_dec (peak audio) 0) as [Hz|Hnz].
  - rewrite (normalize_zero_peak _ Hz), (normalize_zero_peak _ Hz).
    apply buffer_eq_refl.
  - pose proof (peak_normalized _ Hnz) as H1.
    assert (Hnz' : ~ peak (_safe_normalize audio) == 0).
    { rewrite H1. discriminate. }
    rewrite (normalize_nonzero_peak (_safe_normalize audio) Hnz').
    apply divide_by_one, H1.
Qed.

(** ** The range of the output *)

Section OutputRange.

Context {L : Ieee.AudioLibs}.

(** C10, as the code has it.  Output range: whenever the input decodes,
    the stages succeed and the buffer that reaches the normalize stage is
    finite (no stage has overflowed to an infinity or produced NaN), the
    buffer that [process_audio] hands to the WAV encoder is the output of
    the normalize stage and each of its samples is a number of absolute
    value at most 1. *)
Theorem C10_output_range_when_finite (file_bytes : list byte)
    (s : VoiceSettings) (audio pre : Ieee.xbuffer) (sr : Z) (l : buffer) :
  Ieee.librosa_load file_bytes 44100 true = Ok (audio, sr) ->
  Ieee.stages s sr audio = Ok pre ->
  pre = map Ieee.Fin l ->
  Ieee.process_audio file_bytes s
    = Ieee.sf_write (Ieee._safe_normalize pre) sr "WAV" /\
  Forall Ieee.in_unit (Ieee._safe_normalize pre).
Proof.
  intros Hload Hstages ->. split.
  - unfold Ieee.process_audio. rewrite Hload. cbn [bind].
    rewrite Hstages. reflexivity.
  - rewrite ieee_normalize_finite. apply Forall_forall.
    intros y Hy. apply in_map_iff in Hy. destruct Hy as [q [<- Hq]].
    exists q. split; [reflexivity|].
    pose proof (normalize_bounded l) as Hb. rewrite Forall_forall in Hb.
    apply Hb, Hq.
Qed.

End OutputRange.

Lemma C10_output_range_when_finite_witness :
  exists out : Ieee.xbuffer,
    Ieee.process_audio (L := IeeeBench.libs) [x80; xc0; x40; xa0]
      default_settings
    = IeeeBench.write out 44100 "WAV" /\
    Forall Ieee.in_unit out.
Proof.
  pose (audio := map (fun b => Ieee.Fin (Bench.sample_of_byte b))
                     [x80; xc0; x40; xa0]).
  pose (pre := match Ieee.stages (L := IeeeBench.libs) default_settings
                       44100 audio with
               | Ok p => p
               | Raised _ => []
               end).
  pose (l := match IeeeBench.finite_part pre with
             | Some l => l
             | None => []
             end).
  exists (Ieee._safe_normalize pre).
  apply (C10_output_range_when_finite (L := IeeeBench.libs)
           [x80; xc0; x40; xa0] default_settings audio pre 44100 l).
  - reflexivity.
  - vm_compute; reflexivity.
  - vm_compute; reflexivity.
Defined.

(** C10 as the specification words it, for every settings record, does not
    hold: with the finite settings depth = clarity = 1e308 the depth filter
    raises the samples to about 1e303, the clarity filter then overflows to
    infinities, and normalising divides infinity by infinity: the buffer
    handed to the encoder is [0; NaN; NaN; NaN]. *)
Lemma C10_overflow_breaks_range :
  ~ Ieee.output_in_range IeeeBench.libs.
Proof.
  intro H.
  destruct (Ieee.stages (L := IeeeBench.libs) IeeeBench.loud_settings 44100
              (map (fun b => Ieee.Fin (Bench.sample_of_byte b))
                   [x80; xc0; x40; xa0]))
    as [pre|e] eqn:E.
  - pose proof (H [x80; xc0; x40; xa0] IeeeBench.loud_settings _ _ _
                  eq_refl E) as Hrange.
    assert (Hn : Ieee._safe_normalize pre
                 = [Ieee.Fin 0; Ieee.NaN; Ieee.NaN; Ieee.NaN]).
    { vm_compute in E. injection E as <-. vm_compute. reflexivity. }
    rewrite Hn in Hrange.
    inversion Hrange as [|y0 l0 _ Htail]. subst.
    inversion Htail as [|y1 l1 [q [Hq _]] _]. discriminate Hq.
  - vm_compute in E. discriminate E.
Qed.

(** ** Claims about the guards of the stages *)

Section Guards.

Context {L : AudioLibs}.

(** C1. Identity property: with pitch=0, timbre=0, depth=0, speed=1,
    emotion=0, morph=0, noise_reduction=0, clarity=0, [process_audio]
    decodes the input, normalises it and encodes it; each of the seven
    conditional stages returns the buffer it was given. *)
Theorem C1_identity_settings (file_bytes : list byte) :
  process_audio file_bytes identity_settings =
    ('(audio, sr) <- librosa_load file_bytes 44100 true ;;
     sf_write (_safe_normalize audio) sr "WAV") /\
  (forall (sr : Z) (audio : buffer),
     stage_time_stretch identity_settings audio = Ok audio /\
     stage_pitch_shift identity_settings sr audio = Ok audio /\
     stage_timbre identity_settings sr audio = Ok audio /\
     stage_depth identity_settings sr audio = Ok audio /\
     stage_emotion identity_settings audio = Ok audio /\
     stage_noise_gate identity_settings audio = Ok audio /\
     stage_clarity identity_settings sr audio = Ok audio /\
     render identity_settings sr audio = Ok (_safe_normalize audio)).
Proof.
  split.
  - rewrite process_audio_inline.
    destruct (librosa_load file_bytes 44100 true) as [[audio sr]|e];
      reflexivity.
  - intros sr audio. repeat split.
Qed.

(** C3. Pitch/morph combination: the pitch-shift stage is called with the
    single amount pitch + morph/25; pitch=2, morph=0 and pitch=0, morph=50
    call it with the same amount, of value 2, and make [process_audio]
    behave alike; when pitch + morph/25 is 0 the stage returns its input.
    More generally, when [pitch_shift] depends only on the value of the
    amount, two settings with equal pitch + morph/25 shift alike. *)
Theorem C3_pitch_morph_combination (s : VoiceSettings) :
  (forall (sr : Z) (audio : buffer),
     ~ pitch s + morph s / 25 == 0 ->
     stage_pitch_shift s sr audio
       = pitch_shift audio sr (pitch s + morph s / 25)) /\
  (forall (sr : Z) (audio : buffer),
     pitch s + morph s / 25 == 0 ->
     stage_pitch_shift s sr audio = Ok audio) /\
  (exists n : Q,
     n == 2 /\
     forall (sr : Z) (audio : buffer),
       stage_pitch_shift (with_pitch_morph 2 0 s) sr audio
         = pitch_shift audio sr n /\
       stage_pitch_shift (with_pitch_morph 0 50 s) sr audio
         = pitch_shift audio sr n) /\
  (forall file_bytes : list byte,
     process_audio file_bytes (with_pitch_morph 2 0 s)
       = process_audio file_bytes (with_pitch_morph 0 50 s)) /\
  (forall (s' : VoiceSettings) (sr : Z) (audio : buffer),
     (forall (a : buffer) (r : Z) (x y : Q),
        x == y -> pitch_shift a r x = pitch_shift a r y) ->
     pitch s + morph s / 25 == pitch s' + morph s' / 25 ->
     stage_pitch_shift s sr audio = stage_pitch_shift s' sr audio).
Proof.
  split; [|split; [|split; [|split]]].
  - intros sr audio Hnz. unfold stage_pitch_shift, combined_shift.
    rewrite (Qeq_bool_false _ _ Hnz). reflexivity.
  - intros sr audio Hz. unfold stage_pitch_shift, combined_shift.
    apply Qeq_bool_iff in Hz. rewrite Hz. reflexivity.
  - exists (combined_shift (with_pitch_morph 2 0 s)). split.
    + reflexivity.
    + intros sr audio. split; reflexivity.
  - intro file_bytes. reflexivity.
  - intros s' sr audio Hext Heq. unfold stage_pitch_shift, combined_shift.
    destruct (Qeq_bool (pitch s + morph s / 25) 0) eqn:E;
      destruct (Qeq_bool (pitch s' + morph s' / 25) 0) eqn:E'; cbn [negb].
    + reflexivity.
    + apply Qeq_bool_iff in E. rewrite Heq in E.
      apply Qeq_bool_iff in E. congruence.
    + apply Qeq_bool_iff in E'. rewrite <- Heq in E'.
      apply Qeq_bool_iff in E'. congruence.
    + apply Hext, Heq.
Qed.

(** C4. Speed clamp: speed = 0.1 behaves as speed = 0.5; in general a
    speed below 0.5 stretches at rate 0.5, a speed of 0.5 or more (other
    than 1) stretches at that speed, with no upper bound; with speed = 1 the
    stretch stage returns its input. *)
Theorem C4_speed_clamp (s : VoiceSettings) :
  (forall file_bytes : list byte,
     process_audio file_bytes (with_speed (1 # 10) s)
       = process_audio file_bytes (with_speed (1 # 2) s)) /\
  (forall audio : buffer,
     speed s < 1 # 2 ->
     stage_time_stretch s audio = time_stretch audio (1 # 2)) /\
  (forall audio : buffer,
     1 # 2 <= speed s -> ~ speed s == 1 ->
     exists rate : Q,
       rate == speed s /\
       stage_time_stretch s audio = time_stretch audio rate) /\
  (forall audio : buffer,
     speed s == 1 -> stage_time_stretch s audio = Ok audio).
Proof.
  repeat split.
  - intros audio Hlt. unfold stage_time_stretch, py_max.
    rewrite Qeq_bool_false by lra.
    assert (Hb : Qltb (1 # 2) (speed s) = false) by (apply Qltb_ge; lra).
    rewrite Hb. reflexivity.
  - intros audio Hge Hne. unfold stage_time_stretch, py_max.
    rewrite (Qeq_bool_false _ _ Hne). cbn [negb].
    destruct (Qltb (1 # 2) (speed s)) eqn:Hb.
    + exists (speed s). split; reflexivity.
    + exists (1 # 2). apply Qltb_ge in Hb. split; [lra|reflexivity].
  - intros audio H1. unfold stage_time_stretch.
    apply Qeq_bool_iff in H1. rewrite H1. reflexivity.
Qed.

End Guards.

(** ** Claims about the single stages *)

Lemma zip_add_length (a b : buffer) :
  length a = length b -> length (zip_add a b) = length a.
Proof.
  revert b. induction a as [|x a IH]; intros [|y b] H; simpl in *;
    try reflexivity; try discriminate.
  f_equal. apply IH. congruence.
Qed.

Lemma zip_add_nth (a b : buffer) :
  forall (i : nat) (x y : Q),
    nth_error a i = Some x -> nth_error b i = Some y ->
    nth_error (zip_add a b) i = Some (x + y).
Proof.
  revert b. induction a as [|x0 a IH]; intros [|y0 b] [|i] x y Ha Hb;
    simpl in *; try discriminate.
  - congruence.
  - eapply IH; eassumption.
Qed.

Lemma half_rate_nonzero (sr : Z) : sr <> 0%Z -> ~ inject_Z sr / 2 == 0.
Proof.
  intros Hsr H. unfold Qeq in H. simpl in H. lia.
Qed.

Section SingleStages.

Context {L : AudioLibs}.

(** C2. Noise gate: when noise_reduction > 0 the stage runs the gate with
    strength noise_reduction/100; with p the 20th percentile of the absolute
    samples, a sample whose absolute value is strictly below
    p * (1 + noise_reduction/100) becomes exactly one tenth of itself and any
    other sample is unchanged; when noise_reduction <= 0 the stage returns
    its input. *)
Theorem C2_noise_gate (s : VoiceSettings) (audio : buffer) :
  (0 < noise_reduction s ->
   stage_noise_gate s audio
     = _apply_noise_gate audio (noise_reduction s / 100)) /\
  (noise_reduction s <= 0 -> stage_noise_gate s audio = Ok audio) /\
  (forall p : Q,
     0 < noise_reduction s ->
     np_percentile (map Qabs audio) 20 = Ok p ->
     exists gated : buffer,
       stage_noise_gate s audio = Ok gated /\
       length gated = length audio /\
       forall (i : nat) (x : Q),
         nth_error audio i = Some x ->
         (Qabs x < p * (1 + noise_reduction s / 100) ->
          nth_error gated i = Some (x * (1 # 10))) /\
         (p * (1 + noise_reduction s / 100) <= Qabs x ->
          nth_error gated i = Some x)).
Proof.
  assert (Hon : 0 < noise_reduction s ->
                stage_noise_gate s audio
                  = _apply_noise_gate audio (noise_reduction s / 100)).
  { intro Hpos. unfold stage_noise_gate.
    apply Qltb_lt in Hpos. rewrite Hpos. reflexivity. }
  split; [exact Hon|split].
  - intro Hle. unfold stage_noise_gate.
    apply Qltb_ge in Hle. rewrite Hle. reflexivity.
  - intros p Hpos Hp.
    exists (gate_where (p * (1 + noise_reduction s / 100)) audio).
    split; [|split].
    + rewrite (Hon Hpos). unfold _apply_noise_gate. rewrite Hp. reflexivity.
    + unfold gate_where. apply length_map.
    + intros i x Hx. unfold gate_where. split; intro Hcmp.
      * erewrite map_nth_error by exact Hx.
        apply Qltb_lt in Hcmp. rewrite Hcmp. reflexivity.
      * erewrite map_nth_error by exact Hx.
        apply Qltb_ge in Hcmp. rewrite Hcmp. reflexivity.
Qed.

(** C6. Filter-stage structure: [_apply_filter] designs a 2nd-order
    Butterworth filter at cutoff / (sr / 2), runs the buffer through it once
    with [lfilter], and returns original + filtered * gain sample by sample;
    timbre uses a high-pass at 2800 with gain timbre/80 when timbre != 0,
    depth a low-pass at 180 with gain depth/60 when depth != 0, clarity a
    high-pass at 3200 with gain clarity/120 when clarity > 0. *)
Theorem C6_filter_structure (s : VoiceSettings) (sr : Z) (audio : buffer) :
  (forall (cutoff gain : Q) (btype : string) (b a : list Q)
          (filtered : buffer),
     sr <> 0%Z ->
     signal_butter 2 (cutoff / (inject_Z sr / 2)) btype = Ok (b, a) ->
     signal_lfilter b a audio = Ok filtered ->
     length filtered = length audio ->
     exists out : buffer,
       _apply_filter audio sr cutoff btype gain = Ok out /\
       length out = length audio /\
       forall (i : nat) (x f : Q),
         nth_error audio i = Some x ->
         nth_error filtered i = Some f ->
         nth_error out i = Some (x + f * gain)) /\
  (~ timbre s == 0 ->
   stage_timbre s sr audio
     = _apply_filter audio sr 2800 "highpass" (timbre s / 80)) /\
  (timbre s == 0 -> stage_timbre s sr audio = Ok audio) /\
  (~ depth s == 0 ->
   stage_depth s sr audio
     = _apply_filter audio sr 180 "lowpass" (depth s / 60)) /\
  (depth s == 0 -> stage_depth s sr audio = Ok audio) /\
  (0 < clarity s ->
   stage_clarity s sr audio
     = _apply_filter audio sr 3200 "highpass" (clarity s / 120)) /\
  (clarity s <= 0 -> stage_clarity s sr audio = Ok audio).
Proof.
  split; [|repeat split].
  - intros cutoff gain btype b a filtered Hsr Hbutter Hfilter Hlen.
    exists (zip_add audio (np_scale filtered gain)).
    assert (Hlen' : length audio = length (np_scale filtered gain)).
    { unfold np_scale. rewrite length_map. symmetry. exact Hlen. }
    split; [|split].
    + unfold _apply_filter, py_div.
      rewrite (Qeq_bool_false _ _ (half_rate_nonzero sr Hsr)).
      cbn [bind]. rewrite Hbutter. cbn [bind]. rewrite Hfilter. cbn [bind].
      unfold np_add. rewrite Hlen', Nat.eqb_refl. reflexivity.
    + apply zip_add_length, Hlen'.
    + intros i x f Hx Hf. apply zip_add_nth; [exact Hx|].
      unfold np_scale. erewrite map_nth_error by exact Hf. reflexivity.
  - intro Hnz. unfold stage_timbre.
    rewrite (Qeq_bool_false _ _ Hnz). reflexivity.
  - intro Hz. unfold stage_timbre.
    apply Qeq_bool_iff in Hz. rewrite Hz. reflexivity.
  - intro Hnz. unfold stage_depth.
    rewrite (Qeq_bool_false _ _ Hnz). reflexivity.
  - intro Hz. unfold stage_depth.
    apply Qeq_bool_iff in Hz. rewrite Hz. reflexivity.
  - intro Hpos. unfold stage_clarity.
    apply Qltb_lt in Hpos. rewrite Hpos. reflexivity.
  - intro Hle. unfold stage_clarity.
    apply Qltb_ge in Hle. rewrite Hle. reflexivity.
Qed.

(** C7. Emotion saturation: when emotion > 0 the stage replaces every
    sample x by tanh (x * (1 + emotion/120)), otherwise it returns its
    input; in [process_audio] it receives the buffer produced by the timbre
    and depth filters and its result is what the noise gate receives. *)
Theorem C7_emotion_saturation (s : VoiceSettings) :
  (forall audio : buffer,
     0 < emotion s ->
     stage_emotion s audio
       = Ok (map (fun x => np_tanh (x * (1 + emotion s / 120))) audio)) /\
  (forall audio : buffer,
     emotion s <= 0 -> stage_emotion s audio = Ok audio) /\
  (forall (file_bytes : list byte) (audio filtered : buffer) (sr : Z),
     librosa_load file_bytes 44100 true = Ok (audio, sr) ->
     (a1 <- stage_time_stretch s audio ;;
      a2 <- stage_pitch_shift s sr a1 ;;
      a3 <- stage_timbre s sr a2 ;;
      stage_depth s sr a3) = Ok filtered ->
     process_audio file_bytes s =
       (a5 <- stage_emotion s filtered ;;
        a6 <- stage_noise_gate s a5 ;;
        a7 <- stage_clarity s sr a6 ;;
        sf_write (_safe_normalize a7) sr "WAV")).
Proof.
  repeat split.
  - intros audio Hpos. unfold stage_emotion, saturate.
    apply Qltb_lt in Hpos. rewrite Hpos. reflexivity.
  - intros audio Hle. unfold stage_emotion.
    apply Qltb_ge in Hle. rewrite Hle. reflexivity.
  - intros file_bytes audio filtered sr Hload Hpre.
    rewrite process_audio_inline, Hload. cbn [bind].
    destruct (stage_time_stretch s audio) as [a1|]; [|discriminate].
    cbn [bind] in *.
    destruct (stage_pitch_shift s sr a1) as [a2|]; [|discriminate].
    cbn [bind] in *.
    destruct (stage_timbre s sr a2) as [a3|]; [|discriminate].
    cbn [bind] in *. rewrite Hpre. reflexivity.
Qed.

End SingleStages.

(** ** Failures *)

Section Failures.

Context {L : AudioLibs}.

Lemma render_failure_surfaces (file_bytes : list byte) (s : VoiceSettings)
    (audio : buffer) (sr : Z) (e : exn) :
  librosa_load file_bytes 44100 true = Ok (audio, sr) ->
  render s sr audio = Raised e ->
  process_audio file_bytes s = Raised e.
Proof.
  intros Hload Hrender.
  rewrite process_audio_stages, Hload. cbn [bind]. rewrite Hrender.
  reflexivity.
Qed.

(** The exception classes that mean "the input is not audio": for the
    real decoder, soundfile's LibsndfileError. *)
Variable decode_classes : list string.

(** What the theorem asks of the DSP libraries: none of them reports a
    failure of its own with a decode class; nor are the two exceptions that
    Python and numpy raise inside [_apply_filter] decode classes. *)
Hypothesis stretch_errors :
  forall a r e, time_stretch a r = Raised e ->
                ~ In (exn_class e) decode_classes.
Hypothesis shift_errors :
  forall a r n e, pitch_shift a r n = Raised e ->
                  ~ In (exn_class e) decode_classes.
Hypothesis butter_errors :
  forall n w t e, signal_butter n w t = Raised e ->
                  ~ In (exn_class e) decode_classes.
Hypothesis lfilter_errors :
  forall b a x e, signal_lfilter b a x = Raised e ->
                  ~ In (exn_class e) decode_classes.
Hypothesis percentile_errors :
  forall a q e, np_percentile a q = Raised e ->
                ~ In (exn_class e) decode_classes.
Hypothesis builtin_errors :
  ~ In "ZeroDivisionError"%string decode_classes /\
  ~ In "ValueError"%string decode_classes.

Lemma bind_raised_inv {A B : Type} (c : result A) (f : A -> result B)
    (e : exn) :
  bind c f = Raised e -> c = Raised e \/ exists a, c = Ok a /\ f a = Raised e.
Proof.
  destruct c as [a|e0]; simpl; intro H; [eauto|].
  left. injection H as ->. reflexivity.
Qed.

Lemma apply_filter_errors (audio : buffer) (sr : Z) (cutoff gain : Q)
    (btype : string) (e : exn) :
  _apply_filter audio sr cutoff btype gain = Raised e ->
  ~ In (exn_class e) decode_classes.
Proof.
  unfold _apply_filter. intro H.
  apply bind_raised_inv in H. destruct H as [H|[wn [_ H]]].
  { unfold py_div in H. destruct (Qeq_bool (inject_Z sr / 2) 0);
      [|discriminate]. injection H as <-. apply builtin_errors. }
  apply bind_raised_inv in H. destruct H as [H|[[b a] [_ H]]].
  { eapply butter_errors, H. }
  apply bind_raised_inv in H. destruct H as [H|[filtered [_ H]]].
  { eapply lfilter_errors, H. }
  unfold np_add in H.
  destruct (Nat.eqb (length audio) (length (np_scale filtered gain)));
    [discriminate|].
  destruct audio as [|x [|x' audio]];
    destruct (np_scale filtered gain) as [|y [|y' rest]];
    try discriminate; injection H as <-; apply builtin_errors.
Qed.

Lemma render_errors (s : VoiceSettings) (sr : Z) (audio : buffer) (e : exn) :
  render s sr audio = Raised e -> ~ In (exn_class e) decode_classes.
Proof.
  unfold render. intro H.
  apply bind_raised_inv in H. destruct H as [H|[a1 [_ H]]].
  { unfold stage_time_stretch in H.
    destruct (negb (Qeq_bool (speed s) 1)); [|discriminate].
    eapply stretch_errors, H. }
  apply bind_raised_inv in H. destruct H as [H|[a2 [_ H]]].
  { unfold stage_pitch_shift in H.
    destruct (negb (Qeq_bool (combined_shift s) 0)); [|discriminate].
    eapply shift_errors, H. }
  apply bind_raised_inv in H. destruct H as [H|[a3 [_ H]]].
  { unfold stage_timbre in H.
    destruct (negb (Qeq_bool (timbre s) 0)); [|discriminate].
    eapply apply_filter_errors, H. }
  apply bind_raised_inv in H. destruct H as [H|[a4 [_ H]]].
  { unfold stage_depth in H.
    destruct (negb (Qeq_bool (depth s) 0)); [|discriminate].
    eapply apply_filter_errors, H. }
  apply bind_raised_inv in H. destruct H as [H|[a5 [_ H]]].
  { unfold stage_emotion in H.
    destruct (Qltb 0 (emotion s)); discriminate. }
  apply bind_raised_inv in H. destruct H as [H|[a6 [_ H]]].
  { unfold stage_noise_gate in H.
    destruct (Qltb 0 (noise_reduction s)); [|discriminate].
    unfold _apply_noise_gate in H.
    apply bind_raised_inv in H. destruct H as [H|[p [_ H]]]; [|discriminate].
    eapply percentile_errors, H. }
  apply bind_raised_inv in H. destruct H as [H|[a7 [_ H]]]; [|discriminate].
  unfold stage_clarity in H.
  destruct (Qltb 0 (clarity s)); [|discriminate].
  eapply apply_filter_errors, H.
Qed.

(** C5. Error taxonomy: when the decoder rejects the input bytes with a
    decode error, [process_audio] fails with that very exception, whatever
    the settings and before any stage runs; a run that decodes and then
    fails in a DSP stage fails with the exception of that stage, which is
    never a decode error.  A caller therefore tells the two apart by the
    class of the exception. *)
Theorem C5_decode_error_distinct (file_bytes : list byte)
    (s : VoiceSettings) (e : exn) :
  librosa_load file_bytes 44100 true = Raised e ->
  In (exn_class e) decode_classes ->
  process_audio file_bytes s = Raised e /\
  forall (data : list byte) (s' : VoiceSettings) (audio : buffer) (sr : Z)
         (e' : exn),
    librosa_load data 44100 true = Ok (audio, sr) ->
    render s' sr audio = Raised e' ->
    process_audio data s' = Raised e' /\
    ~ In (exn_class e') decode_classes /\
    exn_class e' <> exn_class e /\
    process_audio data s' <> process_audio file_bytes s.
Proof.
  intros Hload Hclass.
  assert (Hfail : process_audio file_bytes s = Raised e).
  { unfold process_audio. rewrite Hload. reflexivity. }
  split; [exact Hfail|].
  intros data s' audio sr e' Hload' Hrender.
  pose proof (render_failure_surfaces _ _ _ _ _ Hload' Hrender) as Hfail'.
  pose proof (render_errors _ _ _ _ Hrender) as Hnot.
  assert (Hne : exn_class e' <> exn_class e).
  { intro Heq. apply Hnot. rewrite Heq. exact Hclass. }
  repeat split; try assumption.
  rewrite Hfail, Hfail'. intro Heq. injection Heq as ->.
  apply Hne. reflexivity.
Qed.

End Failures.

Lemma bench_errors_contract :
  (forall a r e, Bench.stretch a r = Raised e ->
                 ~ In (exn_class e) ["LibsndfileError"%string]) /\
  (forall a r n e, Bench.shift a r n = Raised e ->
                   ~ In (exn_class e) ["LibsndfileError"%string]) /\
  (forall n w t e, Bench.butter n w t = Raised e ->
                   ~ In (exn_class e) ["LibsndfileError"%string]) /\
  (forall b a x e, Bench.lfilter b a x = Raised e ->
                   ~ In (exn_class e) ["LibsndfileError"%string]) /\
  (forall a q e, Bench.percentile a q = Raised e ->
                 ~ In (exn_class e) ["LibsndfileError"%string]).
Proof.
  repeat split.
  - intros a r e H. unfold Bench.stretch in H.
    destruct (Qltb 0 r); [discriminate|]. injection H as <-.
    intros [E|[]]; discriminate E.
  - intros a r n e H. unfold Bench.shift in H.
    destruct (Qltb (-12) n); [discriminate|]. injection H as <-.
    intros [E|[]]; discriminate E.
  - intros n w t e H. unfold Bench.butter in H.
    destruct (Qltb 0 w && Qltb w 1);
      [destruct (String.eqb t "lowpass"); [discriminate|];
       destruct (String.eqb t "highpass"); [discriminate|]|];
      injection H as <-; intros [E|[]]; discriminate E.
  - intros b a x e H. unfold Bench.lfilter in H.
    destruct a as [|a0 a_tail];
      [|destruct (Qeq_bool a0 0); [|discriminate]];
      injection H as <-; intros [E|[]]; discriminate E.
  - intros a q e H. unfold Bench.percentile in H.
    destruct a; [|discriminate]. injection H as <-.
    intros [E|[]]; discriminate E.
Qed.

Lemma C5_decode_error_distinct_witness :
  process_audio (L := Bench.libs) [] default_settings
    = Raised (Exn "LibsndfileError" "Format not recognised") /\
  process_audio (L := Bench.libs) [x80; xc0; x40; xa0]
    (with_pitch_morph (-13) 0 default_settings)
    = Raised (Exn "ParameterError" "n_steps out of range") /\
  process_audio (L := Bench.libs) [x80; xc0; x40; xa0]
    (with_pitch_morph (-13) 0 default_settings)
    <> process_audio (L := Bench.libs) [] default_settings.
Proof.
  destruct bench_errors_contract as [H1 [H2 [H3 [H4 H5]]]].
  assert (Hb : ~ In "ZeroDivisionError"%string ["LibsndfileError"%string] /\
               ~ In "ValueError"%string ["LibsndfileError"%string]).
  { split; intros [E|[]]; discriminate E. }
  destruct (C5_decode_error_distinct (L := Bench.libs)
              ["LibsndfileError"%string] H1 H2 H3 H4 H5 Hb
              [] default_settings
              (Exn "LibsndfileError" "Format not recognised")
              eq_refl (or_introl eq_refl))
    as [Hd Hp].
  destruct (Hp [x80; xc0; x40; xa0]
              (with_pitch_morph (-13) 0 default_settings)
              (map Bench.sample_of_byte [x80; xc0; x40; xa0]) 44100%Z
              (Exn "ParameterError" "n_steps out of range")
              eq_refl eq_refl)
    as [Hp1 [_ [_ Hp4]]].
  split; [exact Hd|split; [exact Hp1|exact Hp4]].
Defined.

(** ** The theorems at concrete inputs

    Each lemma below instantiates one of the theorems above on the [Bench]
    libraries, with its hypotheses discharged by evaluation. *)

Lemma C8_normalize_silence_safe_witness :
  _safe_normalize [0; 0; 0] = [0; 0; 0] /\
  buffer_eq (_safe_normalize [1; -2]) (map (fun x => x / 2) [1; -2]) /\
  Forall (fun y => Qabs y <= 1) (_safe_normalize [1; -2]) /\
  exists y, In y (_safe_normalize [1; -2]) /\ Qabs y == 1.
Proof.
  split.
  - apply (proj1 (C8_normalize_silence_safe [0; 0; 0])).
    repeat constructor.
  - apply (proj1 (proj2 (C8_normalize_silence_safe [1; -2])) 2).
    + intros x [<-|[<-|[]]]; discriminate.
    + exists (-2). split; [right; left; reflexivity|reflexivity].
    + discriminate.
Defined.

Lemma C2_noise_gate_witness :
  exists gated : buffer,
    stage_noise_gate (L := Bench.libs) default_settings
      [1; -2; 3; -4; 5; 6] = Ok gated /\
    length gated = 6%nat /\
    forall (i : nat) (x : Q),
      nth_error [1; -2; 3; -4; 5; 6] i = Some x ->
      (Qabs x < 2 * (1 + 40 / 100) ->
       nth_error gated i = Some (x * (1 # 10))) /\
      (2 * (1 + 40 / 100) <= Qabs x -> nth_error gated i = Some x).
Proof.
  apply (proj2 (proj2 (C2_noise_gate (L := Bench.libs) default_settings
                         [1; -2; 3; -4; 5; 6])) 2).
  - reflexivity.
  - vm_compute; reflexivity.
Defined.

Lemma C3_pitch_morph_combination_witness :
  stage_pitch_shift (L := Bench.libs) (with_pitch_morph 0 50 default_settings)
    44100 [1 # 2; 1 # 4; -1 # 4]
  = Bench.shift [1 # 2; 1 # 4; -1 # 4] 44100 (0 + 50 / 25) /\
  stage_pitch_shift (L := Bench.libs) (with_pitch_morph 1 (-25) default_settings)
    44100 [1 # 2; 1 # 4; -1 # 4]
  = Ok [1 # 2; 1 # 4; -1 # 4].
Proof.
  split.
  - apply (proj1 (C3_pitch_morph_combination (L := Bench.libs)
                    (with_pitch_morph 0 50 default_settings))).
    intro H. vm_compute in H. discriminate.
  - apply (proj1 (proj2 (C3_pitch_morph_combination (L := Bench.libs)
                    (with_pitch_morph 1 (-25) default_settings)))).
    vm_compute; reflexivity.
Defined.

Lemma C4_speed_clamp_witness :
  stage_time_stretch (L := Bench.libs) (with_speed (1 # 10) default_settings)
    [1 # 2; 1 # 4]
  = Bench.stretch [1 # 2; 1 # 4] (1 # 2) /\
  stage_time_stretch (L := Bench.libs) (with_speed (2 # 2) default_settings)
    [1 # 2; 1 # 4]
  = Ok [1 # 2; 1 # 4].
Proof.
  split.
  - apply (proj1 (proj2 (C4_speed_clamp (L := Bench.libs)
                           (with_speed (1 # 10) default_settings)))).
    reflexivity.
  - apply (proj2 (proj2 (proj2 (C4_speed_clamp (L := Bench.libs)
                           (with_speed (2 # 2) default_settings))))).
    reflexivity.
Defined.

Lemma C6_filter_structure_witness :
  exists out : buffer,
    _apply_filter (L := Bench.libs) [1; 0; 0; 0] 44100 2800 "highpass"
      (1 # 8) = Ok out /\
    length out = 4%nat /\
    nth_error out 0 = Some (1 + (59 # 63) * (1 # 8)).
Proof.
  edestruct (proj1 (C6_filter_structure (L := Bench.libs) default_settings
                      44100 [1; 0; 0; 0])
               2800 (1 # 8) "highpass"%string)
    as [out [H1 [H2 H3]]].
  - discriminate.
  - vm_compute; reflexivity.
  - vm_compute; reflexivity.
  - reflexivity.
  - exists out. split; [exact H1|split; [exact H2|]].
    apply (H3 0%nat); reflexivity.
Defined.

Lemma C7_emotion_saturation_witness :
  process_audio (L := Bench.libs) [x80; xc0; x40; xa0] default_settings =
    (a5 <- stage_emotion (L := Bench.libs) default_settings
             (map Bench.sample_of_byte [x80; xc0; x40; xa0]) ;;
     a6 <- stage_noise_gate (L := Bench.libs) default_settings a5 ;;
     a7 <- stage_clarity (L := Bench.libs) default_settings 44100 a6 ;;
     Bench.write (_safe_normalize a7) 44100 "WAV").
Proof.
  apply (proj2 (proj2 (C7_emotion_saturation (L := Bench.libs)
                         default_settings))
           [x80; xc0; x40; xa0]
           (map Bench.sample_of_byte [x80; xc0; x40; xa0])).
  - reflexivity.
  - reflexivity.
Defined.

(** ** Runs of the pipeline on the stand-in libraries *)

Example normalize_run :
  _safe_normalize [1; -2] = [1 # 2; -2 # 2] /\ _safe_normalize [] = [].
Proof. split; reflexivity. Qed.

Example noise_gate_run :
  Bench.percentile (map Qabs [1; -2; 3; -4; 5; 6]) 20 = Ok 2 /\
  _apply_noise_gate (L := Bench.libs) [1; -2; 3; -4; 5; 6] (1 # 2)
    = Ok [1 # 10; -2 # 10; 3; -4; 5; 6].
Proof. split; vm_compute; reflexivity. Qed.

Example default_run :
  process_audio (L := Bench.libs) [x80; xc0; x40; xa0] default_settings
    = Ok [x80; xf9; x01; xcd].
Proof. vm_compute; reflexivity. Qed.

Example identity_run :
  process_audio (L := Bench.libs) [x80; xc0; x40; xa0] identity_settings
    = Ok [x80; xff; x01; xc0].
Proof. vm_compute; reflexivity. Qed.

Example slow_run :
  process_audio (L := Bench.libs) [x80; xc0; x40; xa0]
    (with_speed (1 # 10) default_settings)
    = Ok [x80; x80; xf5; xf0; x01; x08; xcc; xc9].
Proof. vm_compute; reflexivity. Qed.

Example empty_input_run :
  process_audio (L := Bench.libs) [] default_settings
    = Raised (Exn "LibsndfileError" "Format not recognised").
Proof. reflexivity. Qed.


(** ** Further properties of the noise gate *)

Lemma gate_where_nth (threshold : Q) (audio : buffer) (i : nat) (y : Q) :
  nth_error (gate_where threshold audio) i = Some y ->
  exists x, nth_error audio i = Some x /\
    ((Qabs x < threshold /\ y = x * (1 # 10)) \/
     (threshold <= Qabs x /\ y = x)).
Proof.
  unfold gate_where. rewrite nth_error_map.
  destruct (nth_error audio i) as [x|]; simpl; [|discriminate].
  intro H. injection H as <-. exists x. split; [reflexivity|].
  destruct (Qltb (Qabs x) threshold) eqn:E.
  - left. apply Qltb_lt in E. auto.
  - right. apply Qltb_ge in E. auto.
Qed.

Lemma tenth_is_not_same (x : Q) : x * (1 # 10) <> x.
Proof.
  intro H. apply (f_equal Qden) in H. simpl in H. lia.
Qed.

Section Gate.

Context {L : AudioLibs}.

(** X3. The noise gate never amplifies: when it succeeds, its output has
    the length of its input, and every output sample is the input sample or
    one tenth of it, so its absolute value is no larger. *)
Theorem noise_gate_never_amplifies (audio gated : buffer) (strength : Q) :
  _apply_noise_gate audio strength = Ok gated ->
  length gated = length audio /\
  forall (i : nat) (x y : Q),
    nth_error audio i = Some x -> nth_error gated i = Some y ->
    (y = x \/ y = x * (1 # 10)) /\ Qabs y <= Qabs x.
Proof.
  unfold _apply_noise_gate. intro H.
  apply bind_ok_inv in H. destruct H as [p [_ H]]. injection H as <-.
  split; [unfold gate_where; apply length_map|].
  intros i x y Hx Hy. apply gate_where_nth in Hy.
  destruct Hy as [x' [Hx' Hy]]. rewrite Hx in Hx'. injection Hx' as <-.
  destruct Hy as [[_ ->]|[_ ->]].
  - split; [right; reflexivity|].
    rewrite Qabs_Qmult. pose proof (Qabs_nonneg x).
    change (Qabs (1 # 10)) with (1 # 10). nra.
  - split; [left; reflexivity|apply Qle_refl].
Qed.

(** X4. A gate whose threshold is not positive does nothing: when the 20th
    percentile of the absolute samples is 0 (a fifth of the clip is digital
    silence), the buffer comes back unchanged whatever the strength. *)
Theorem noise_gate_zero_percentile (audio : buffer) (strength p : Q) :
  np_percentile (map Qabs audio) 20 = Ok p ->
  p * (1 + strength) <= 0 ->
  _apply_noise_gate audio strength = Ok audio.
Proof.
  intros Hp Hthr. unfold _apply_noise_gate. rewrite Hp. cbn [bind].
  f_equal. unfold gate_where. rewrite <- (map_id audio) at 2.
  apply map_ext. intro x.
  assert (Hb : Qltb (Qabs x) (p * (1 + strength)) = false).
  { apply Qltb_ge. eapply Qle_trans; [exact Hthr|apply Qabs_nonneg]. }
  rewrite Hb. reflexivity.
Qed.

(** X5. The gate is monotone in its strength: with a non-negative
    percentile, a sample that is attenuated at one strength is attenuated at
    every greater strength. *)
Theorem noise_gate_monotone (audio g1 g2 : buffer) (s1 s2 p : Q) :
  np_percentile (map Qabs audio) 20 = Ok p ->
  0 <= p -> s1 <= s2 ->
  _apply_noise_gate audio s1 = Ok g1 ->
  _apply_noise_gate audio s2 = Ok g2 ->
  forall (i : nat) (x : Q),
    nth_error audio i = Some x ->
    nth_error g1 i = Some (x * (1 # 10)) ->
    nth_error g2 i = Some (x * (1 # 10)).
Proof.
  intros Hp Hp0 Hs H1 H2 i x Hx Hg1.
  unfold _apply_noise_gate in H1, H2. rewrite Hp in H1, H2.
  cbn [bind] in H1, H2. injection H1 as <-. injection H2 as <-.
  apply gate_where_nth in Hg1. destruct Hg1 as [x' [Hx' Hc]].
  rewrite Hx in Hx'. injection Hx' as <-.
  destruct Hc as [[Hlt _]|[_ Hsame]].
  - unfold gate_where. erewrite map_nth_error by exact Hx.
    assert (Hb : Qltb (Qabs x) (p * (1 + s2)) = true).
    { apply Qltb_lt. eapply Qlt_le_trans; [exact Hlt|]. nra. }
    rewrite Hb. reflexivity.
  - exfalso. exact (tenth_is_not_same x Hsame).
Qed.

End Gate.

Lemma noise_gate_never_amplifies_witness :
  length [1 # 10; -2 # 10; 3; -4; 5; 6] = length [1; -2; 3; -4; 5; 6] /\
  forall (i : nat) (x y : Q),
    nth_error [1; -2; 3; -4; 5; 6] i = Some x ->
    nth_error [1 # 10; -2 # 10; 3; -4; 5; 6] i = Some y ->
    (y = x \/ y = x * (1 # 10)) /\ Qabs y <= Qabs x.
Proof.
  apply (noise_gate_never_amplifies (L := Bench.libs)
           [1; -2; 3; -4; 5; 6] _ (1 # 2)).
  vm_compute; reflexivity.
Defined.

Lemma noise_gate_zero_percentile_witness :
  _apply_noise_gate (L := Bench.libs) [0; 0; 1 # 2; -1; 3 # 4] (2 # 5)
    = Ok [0; 0; 1 # 2; -1; 3 # 4].
Proof.
  apply (noise_gate_zero_percentile (L := Bench.libs)
           [0; 0; 1 # 2; -1; 3 # 4] (2 # 5) 0).
  - vm_compute; reflexivity.
  - vm_compute; discriminate.
Defined.

Lemma noise_gate_monotone_witness :
  nth_error [1 # 10; -2 # 10; 3; -4; 5; 6] 0 = Some (1 * (1 # 10)).
Proof.
  apply (noise_gate_monotone (L := Bench.libs) [1; -2; 3; -4; 5; 6]
           [1 # 10; -2; 3; -4; 5; 6] [1 # 10; -2 # 10; 3; -4; 5; 6]
           (-1 # 4) (1 # 2) 2 eq_refl).
  - discriminate.
  - discriminate.
  - vm_compute; reflexivity.
  - vm_compute; reflexivity.
  - reflexivity.
  - reflexivity.
Defined.

(** ** The pipeline without time-stretch and pitch-shift *)

Lemma gate_length (threshold : Q) (audio : buffer) :
  length (gate_where threshold audio) = length audio.
Proof. unfold gate_where. apply length_map. Qed.

Lemma cutoff_in_range (sr : Z) (cutoff : Q) :
  0 < cutoff -> cutoff <= 3200 -> (6400 < sr)%Z ->
  exists wn, py_div cutoff (inject_Z sr / 2) = Ok wn /\ 0 < wn /\ wn < 1.
Proof.
  intros Hc0 Hc Hsr. exists (cutoff / (inject_Z sr / 2)).
  assert (Hh : 3200 < inject_Z sr / 2).
  { unfold Qlt, Qdiv, Qmult, Qinv, inject_Z. simpl. lia. }
  split; [|split].
  - unfold py_div. rewrite Qeq_bool_false; [reflexivity|]. lra.
  - apply Qlt_shift_div_l; lra.
  - apply Qlt_shift_div_r; lra.
Qed.

Lemma bench_lfilter_from_length (b a_tail : list Q) (a0 : Q) (x : buffer) :
  forall xs ys, length (Bench.lfilter_from b a_tail a0 xs ys x) = length x.
Proof.
  induction x as [|x0 x IH]; intros xs ys; simpl; [reflexivity|].
  f_equal. apply IH.
Qed.

Lemma bench_design_contract (wn : Q) (btype : string) :
  0 < wn -> wn < 1 -> btype = "highpass"%string \/ btype = "lowpass"%string ->
  exists b a,
    Bench.butter 2 wn btype = Ok (b, a) /\
    forall x, exists y, Bench.lfilter b a x = Ok y /\ length y = length x.
Proof.
  intros H0 H1 Hb. unfold Bench.butter.
  apply Qltb_lt in H0. apply Qltb_lt in H1. rewrite H0, H1. cbn [andb].
  destruct Hb as [-> | ->]; cbn.
  - do 2 eexists. split; [reflexivity|].
    intro x. eexists. split; [reflexivity|apply bench_lfilter_from_length].
  - do 2 eexists. split; [reflexivity|].
    intro x. eexists. split; [reflexivity|apply bench_lfilter_from_length].
Qed.

Lemma bench_percentile_contract (a : buffer) (q : Q) :
  a <> [] -> exists p, Bench.percentile a q = Ok p.
Proof.
  destruct a as [|x a]; [congruence|]. intros _.
  unfold Bench.percentile. eexists. reflexivity.
Qed.

Section NoEffects.

Context {L : AudioLibs}.

(** The contracts of scipy and numpy the next theorem relies on: a
    Butterworth design exists for every normalised cutoff strictly between
    0 and 1, the designed filter runs on every buffer and keeps its length,
    and the percentile of a non-empty array exists. *)
Hypothesis design_contract :
  forall (wn : Q) (btype : string),
    0 < wn -> wn < 1 ->
    btype = "highpass"%string \/ btype = "lowpass"%string ->
    exists b a,
      signal_butter 2 wn btype = Ok (b, a) /\
      forall x, exists y, signal_lfilter b a x = Ok y /\ length y = length x.

Hypothesis percentile_contract :
  forall (a : buffer) (q : Q), a <> [] -> exists p, np_percentile a q = Ok p.

Lemma apply_filter_succeeds (audio : buffer) (sr : Z) (cutoff gain : Q)
    (btype : string) :
  0 < cutoff -> cutoff <= 3200 -> (6400 < sr)%Z ->
  btype = "highpass"%string \/ btype = "lowpass"%string ->
  exists out,
    _apply_filter audio sr cutoff btype gain = Ok out /\
    length out = length audio.
Proof.
  intros Hc0 Hc Hsr Hb.
  destruct (cutoff_in_range sr cutoff Hc0 Hc Hsr) as [wn [Hwn [Hw0 Hw1]]].
  destruct (design_contract wn btype Hw0 Hw1 Hb) as [b [a [Hd Hrun]]].
  destruct (Hrun audio) as [y [Hy Hlen]].
  assert (Hlen' : length audio = length (np_scale y gain)).
  { unfold np_scale. rewrite length_map. symmetry. exact Hlen. }
  exists (zip_add audio (np_scale y gain)). split.
  - unfold _apply_filter. rewrite Hwn. cbn [bind]. rewrite Hd. cbn [bind].
    rewrite Hy. cbn [bind]. unfold np_add.
    rewrite Hlen', Nat.eqb_refl. reflexivity.
  - apply zip_add_length, Hlen'.
Qed.

(** X6. When speed is 1 and pitch + morph/25 is 0, so that neither librosa
    effect runs, and the decoder reports a sample rate above 6400 Hz (twice
    the highest cutoff), the stages cannot fail on a non-empty clip and the
    buffer handed to the encoder has exactly as many samples as were
    decoded. *)
Theorem render_succeeds_without_effects (s : VoiceSettings) (sr : Z)
    (audio : buffer) :
  speed s == 1 -> pitch s + morph s / 25 == 0 ->
  (6400 < sr)%Z -> audio <> [] ->
  exists out, render s sr audio = Ok out /\ length out = length audio.
Proof.
  intros Hspeed Hshift Hsr Hne. unfold render.
  assert (H1 : stage_time_stretch s audio = Ok audio).
  { unfold stage_time_stretch. apply Qeq_bool_iff in Hspeed.
    rewrite Hspeed. reflexivity. }
  assert (H2 : stage_pitch_shift s sr audio = Ok audio).
  { unfold stage_pitch_shift, combined_shift. apply Qeq_bool_iff in Hshift.
    rewrite Hshift. reflexivity. }
  rewrite H1. cbn [bind]. rewrite H2. cbn [bind].
  assert (H3 : exists a3, stage_timbre s sr audio = Ok a3 /\
                          length a3 = length audio).
  { unfold stage_timbre. destruct (negb (Qeq_bool (timbre s) 0)).
    - apply apply_filter_succeeds; auto; lra || discriminate.
    - eauto. }
  destruct H3 as [a3 [-> L3]]. cbn [bind].
  assert (H4 : exists a4, stage_depth s sr a3 = Ok a4 /\
                          length a4 = length a3).
  { unfold stage_depth. destruct (negb (Qeq_bool (depth s) 0)).
    - apply apply_filter_succeeds; auto; lra || discriminate.
    - eauto. }
  destruct H4 as [a4 [-> L4]]. cbn [bind].
  assert (H5 : exists a5, stage_emotion s a4 = Ok a5 /\
                          length a5 = length a4).
  { unfold stage_emotion, saturate. destruct (Qltb 0 (emotion s)).
    - eexists. split; [reflexivity|apply length_map].
    - eauto. }
  destruct H5 as [a5 [-> L5]]. cbn [bind].
  assert (H6 : exists a6, stage_noise_gate s a5 = Ok a6 /\
                          length a6 = length a5).
  { unfold stage_noise_gate. destruct (Qltb 0 (noise_reduction s)).
    - assert (Hne5 : map Qabs a5 <> []).
      { intro Hnil. apply (f_equal (@length Q)) in Hnil.
        rewrite length_map, L5, L4, L3 in Hnil.
        destruct audio; [congruence|discriminate]. }
      destruct (percentile_contract _ 20 Hne5) as [p Hp].
      unfold _apply_noise_gate. rewrite Hp. cbn [bind].
      eexists. split; [reflexivity|apply gate_length].
    - eauto. }
  destruct H6 as [a6 [-> L6]]. cbn [bind].
  assert (H7 : exists a7, stage_clarity s sr a6 = Ok a7 /\
                          length a7 = length a6).
  { unfold stage_clarity. destruct (Qltb 0 (clarity s)).
    - apply apply_filter_succeeds; auto; lra || discriminate.
    - eauto. }
  destruct H7 as [a7 [-> L7]]. cbn [bind].
  eexists. split; [reflexivity|].
  rewrite normalize_length. congruence.
Qed.

End NoEffects.

Lemma render_succeeds_without_effects_witness :
  exists out,
    render (L := Bench.libs) default_settings 44100
      (map Bench.sample_of_byte [x80; xc0; x40; xa0]) = Ok out /\
    length out = 4%nat.
Proof.
  apply (render_succeeds_without_effects (L := Bench.libs)
           bench_design_contract bench_percentile_contract
           default_settings 44100
           (map Bench.sample_of_byte [x80; xc0; x40; xa0])).
  - reflexivity.
  - reflexivity.
  - reflexivity.
  - discriminate.
Defined.

(** ** Settings that are ignored *)

Section Ignored.

Context {L : AudioLibs}.

(** X7. Emotion, noise_reduction and clarity act only when positive: zero
    and negative values of these three fields all give the same result. *)
Theorem nonpositive_dynamics_ignored (file_bytes : list byte)
    (s : VoiceSettings) (e n c : Q) :
  emotion s <= 0 -> noise_reduction s <= 0 -> clarity s <= 0 ->
  e <= 0 -> n <= 0 -> c <= 0 ->
  process_audio file_bytes (with_dynamics e n c s)
    = process_audio file_bytes s.
Proof.
  intros He Hn Hc He' Hn' Hc'.
  apply Qltb_ge in He, Hn, Hc, He', Hn', Hc'.
  rewrite !process_audio_inline.
  destruct (librosa_load file_bytes 44100 true) as [[audio sr]|e0];
    [cbn [bind]|reflexivity].
  change (stage_time_stretch (with_dynamics e n c s) audio)
    with (stage_time_stretch s audio).
  destruct (stage_time_stretch s audio) as [a1|]; [cbn [bind]|reflexivity].
  change (stage_pitch_shift (with_dynamics e n c s) sr a1)
    with (stage_pitch_shift s sr a1).
  destruct (stage_pitch_shift s sr a1) as [a2|]; [cbn [bind]|reflexivity].
  change (stage_timbre (with_dynamics e n c s) sr a2)
    with (stage_timbre s sr a2).
  destruct (stage_timbre s sr a2) as [a3|]; [cbn [bind]|reflexivity].
  change (stage_depth (with_dynamics e n c s) sr a3)
    with (stage_depth s sr a3).
  destruct (stage_depth s sr a3) as [a4|]; [cbn [bind]|reflexivity].
  unfold stage_emotion, stage_noise_gate, stage_clarity.
  cbn [emotion noise_reduction clarity with_dynamics].
  rewrite He, Hn, Hc, He', Hn', Hc'. reflexivity.
Qed.

End Ignored.

Lemma nonpositive_dynamics_ignored_witness :
  process_audio (L := Bench.libs) [x80; xc0; x40; xa0]
    (with_dynamics (-5) (-40) (-1 # 3) identity_settings)
  = process_audio (L := Bench.libs) [x80; xc0; x40; xa0] identity_settings.
Proof.
  apply (nonpositive_dynamics_ignored (L := Bench.libs)
           [x80; xc0; x40; xa0] identity_settings (-5) (-40) (-1 # 3));
    discriminate.
Defined.

(** ** The HTTP handler *)

Lemma filename_or_upload_nonempty (name : option string) :
  filename_or_upload name <> EmptyString.
Proof. destruct name as [[|c n]|]; discriminate. Qed.

(** What every row written by the handler looks like. *)
Lemma written_row_shape (name : option string) :
  let row := new_RenderJob (filename_or_upload name)
               (Some "completed"%string) (Some true) in
  status row = "completed"%string /\ consent_confirmed row = true /\
  user_id row = None /\ filename row <> EmptyString.
Proof.
  repeat split. apply filename_or_upload_nonempty.
Qed.

Section Handler.

Context {L : AudioLibs}.

(** X10. Over any sequence of requests the database only grows at its end:
    the rows present before are kept in place, one row is added per
    successful conversion and none per failed one, and every added row has
    status "completed", consent confirmed, no user and a non-empty
    filename. *)
Theorem serve_appends_completed_jobs
    (requests : list (UploadFile * ConvertForm)) (db : list RenderJob) :
  exists added : list RenderJob,
    serve requests db = db ++ added /\
    length added = length (filter succeeds requests) /\
    Forall (fun row => status row = "completed"%string /\
                       consent_confirmed row = true /\
                       user_id row = None /\
                       filename row <> EmptyString) added.
Proof.
  revert db. induction requests as [|[audio form] requests IH]; intro db.
  - exists []. cbn. rewrite app_nil_r. repeat split. constructor.
  - assert (Hstep : serve ((audio, form) :: requests) db
                    = serve requests (snd (convert_audio audio form db)))
      by reflexivity.
    rewrite Hstep. cbn [filter]. unfold succeeds at 1. cbn [fst snd].
    unfold convert_audio. cbv zeta.
    destruct (process_audio (upload_content audio) (form_settings form))
      as [out|e]; cbn [snd].
    + destruct (IH (db ++ [new_RenderJob
                             (filename_or_upload (upload_filename audio))
                             (Some "completed"%string) (Some true)]))
        as [added [Hs [Hl Hf]]].
      eexists (_ :: added). split; [|split].
      * rewrite Hs, <- app_assoc. reflexivity.
      * cbn. rewrite Hl. reflexivity.
      * constructor; [|exact Hf].
        apply (written_row_shape (upload_filename audio)).
    + destruct (IH db) as [added [Hs [Hl Hf]]].
      exists added. split; [|split]; assumption.
Qed.

(** X11. A request that sets no form field is not the identity transform:
    the stretch, pitch, timbre and depth stages are skipped, while
    saturation at intensity 50/120, the noise gate at strength 40/100 and
    the clarity filter at gain 60/120 are applied. *)
Theorem default_request_pipeline (file_bytes : list byte) :
  form_settings empty_form = default_settings /\
  process_audio file_bytes (form_settings empty_form) =
    ('(audio, sr) <- librosa_load file_bytes 44100 true ;;
     a6 <- _apply_noise_gate (saturate (50 / 120) audio) (40 / 100) ;;
     a7 <- _apply_filter a6 sr 3200 "highpass" (60 / 120) ;;
     sf_write (_safe_normalize a7) sr "WAV").
Proof.
  split; [reflexivity|].
  rewrite process_audio_inline.
  destruct (librosa_load file_bytes 44100 true) as [[audio sr]|e];
    reflexivity.
Qed.

End Handler.

